(** * Library manager client script (static/app.js): model and properties

    The script is one [DOMContentLoaded] closure: a handful of helper
    functions ([showError], [normalizeIsbn], [escapeHtml], [filterRows],
    [enableEditing], [cancelEditing], [startScanner], [stopScanner]) and
    the event handlers that call them.  The page is modelled as a record
    of the elements the closure captures, the helpers as functions on
    that record, and the calls that leave the page ([fetch], [alert],
    [setTimeout], the scanner library, [location.reload]) as a log.

    Strings are [string]; one [ascii] stands for one code unit.  The
    regular expressions of the script are all single-character classes
    with the [g] flag, so they act code unit by code unit. *)

From Stdlib Require Import Ascii.
From stdpp Require Import base option list gmap strings.

(** ** Strings *)

Module Str.

(** The characters a Rocq string literal cannot hold directly. *)
Definition dquote : ascii := "034"%char.
Definition dq : string := String dquote "".

Fixpoint to_list (s : string) : list ascii :=
  match s with
  | EmptyString => []
  | String c s' => c :: to_list s'
  end.

(** [String.prototype.replace] with a one-character class and the [g]
    flag: every matching code unit is replaced, left to right, and the
    replacement text is not scanned again. *)
Fixpoint replace_g (class : ascii → bool) (by_ : string) (s : string) : string :=
  match s with
  | EmptyString => EmptyString
  | String c s' =>
      if class c then by_ +:+ replace_g class by_ s'
      else String c (replace_g class by_ s')
  end.

(** [c] is in [[0-9]]. *)
Definition isDigit (c : ascii) : bool :=
  let n := nat_of_ascii c in (48 <=? n)%nat && (n <=? 57)%nat.

(** [\D]. *)
Definition nonDigit (c : ascii) : bool := negb (isDigit c).

Definition isChar (x : ascii) (c : ascii) : bool := bool_decide (c = x).

(** [q] is a prefix of [s]. *)
Fixpoint startsWith (s q : string) {struct q} : bool :=
  match q, s with
  | EmptyString, _ => true
  | String _ _, EmptyString => false
  | String a q', String b s' => bool_decide (a = b) && startsWith s' q'
  end.

(** [String.prototype.includes]: [q] occurs in [s] at some position. *)
Fixpoint includes (s q : string) : bool :=
  startsWith s q ||
  match s with
  | EmptyString => false
  | String _ s' => includes s' q
  end.

(** [!s] on a string: only the empty string is falsy. *)
Definition falsy (s : string) : bool := bool_decide (s = "").

End Str.

(** ** [normalizeIsbn] *)

(** The values [normalizeIsbn] is called with: a string, or [null] /
    [undefined] for a missing one. *)
Inductive JsValue :=
  | JsNull
  | JsUndefined
  | JsString (s : string).

(** [!s] *)
Definition js_not (v : JsValue) : bool :=
  match v with
  | JsNull | JsUndefined => true
  | JsString s => Str.falsy s
  end.

(** [String(s)] *)
Definition js_String (v : JsValue) : string :=
  match v with
  | JsNull => "null"
  | JsUndefined => "undefined"
  | JsString s => s
  end.

(** [function normalizeIsbn(s) { if (!s) return ''; return String(s).replace(/\D/g, ''); }] *)
Definition normalizeIsbn (s : JsValue) : string :=
  if js_not s then ""
  else Str.replace_g Str.nonDigit "" (js_String s).

(** ** [escapeHtml] *)

(** The five replacements, in the order the script chains them. *)
Definition escapeHtml (str : string) : string :=
  Str.replace_g (Str.isChar ">"%char) "&gt;"
    (Str.replace_g (Str.isChar "<"%char) "&lt;"
      (Str.replace_g (Str.isChar "'"%char) "&#39;"
        (Str.replace_g (Str.isChar Str.dquote) "&quot;"
          (Str.replace_g (Str.isChar "&"%char) "&amp;" str)))).

(** What the chain does to one code unit of the input. *)
Definition escapeChar (c : ascii) : string :=
  if Str.isChar "&"%char c then "&amp;"
  else if Str.isChar Str.dquote c then "&quot;"
  else if Str.isChar "'"%char c then "&#39;"
  else if Str.isChar "<"%char c then "&lt;"
  else if Str.isChar ">"%char c then "&gt;"
  else String c "".

(** Decoding of the five entities, as an HTML reader does it: reading
    left to right, each of [&amp;] [&quot;] [&#39;] [&lt;] [&gt;] stands
    for its character, any other code unit for itself. *)
Fixpoint decodeEntities (s : string) : string :=
  match s with
  | String "&"%char (String "a"%char (String "m"%char (String "p"%char (String ";"%char r)))) =>
      String "&"%char (decodeEntities r)
  | String "&"%char (String "q"%char (String "u"%char (String "o"%char (String "t"%char (String ";"%char r))))) =>
      String Str.dquote (decodeEntities r)
  | String "&"%char (String "#"%char (String "3"%char (String "9"%char (String ";"%char r)))) =>
      String "'"%char (decodeEntities r)
  | String "&"%char (String "l"%char (String "t"%char (String ";"%char r))) =>
      String "<"%char (decodeEntities r)
  | String "&"%char (String "g"%char (String "t"%char (String ";"%char r))) =>
      String ">"%char (decodeEntities r)
  | String c r => String c (decodeEntities r)
  | EmptyString => EmptyString
  end.

(** The value an HTML tokenizer takes for a double-quoted attribute,
    given the text after the opening quote: everything before the next
    double quote. *)
Fixpoint attributeValue (s : string) : string :=
  match s with
  | EmptyString => EmptyString
  | String c r =>
      if Str.isChar Str.dquote c then EmptyString
      else String c (attributeValue r)
  end.

(** The five entity bodies, after the ampersand. *)
Definition entityTails : list string := ["amp;"; "quot;"; "#39;"; "lt;"; "gt;"].

(** A code unit that is none of the raw characters less-than,
    greater-than, double quote and apostrophe. *)
Definition rawFree (c : ascii) : Prop :=
  c ≠ "<"%char ∧ c ≠ ">"%char ∧ c ≠ Str.dquote ∧ c ≠ "'"%char.

(** ** Values read from the DOM *)

(** [a || b] where [b] is a string. *)
Definition js_or (a : JsValue) (b : string) : string :=
  if js_not a then b else js_String a.

(** [String(b)] of a boolean, as a template literal or
    [URLSearchParams.append] produces it. *)
Definition js_bool (b : bool) : string := if b then "true" else "false".

(** ** The platform

    Built-ins of the browser that the script calls and that have no
    definition in the repository.  The model is parametric in them. *)
Class Platform := {
  (** [String.prototype.toLowerCase] *)
  toLowerCase : string → string;
  (** [String.prototype.trim] *)
  trim : string → string;
  (** [encodeURIComponent], on well-formed strings *)
  encodeURIComponent : string → string;
  (** [URLSearchParams.prototype.toString] of the appended pairs *)
  urlencoded : list (string * string) → string;
  (** [textContent] of an element whose markup is the argument *)
  textContent : string → string;
  (** parsing markup: the [checked] property of the first element with
      class [gift-toggle] that the markup creates, if it creates one *)
  parseGiftToggle : string → option bool;
  (** [el.innerHTML] as read after [el.innerHTML = html]: the
      serialisation of the nodes the fragment parser builds from [html],
      which need not be [html] *)
  readBack : string → string;
}.

(** ** The page *)

(** A table cell: its markup, and the one piece of live state below it
    that the script reads, the [.gift-toggle] checkbox.  [innerHTML] is
    the markup as reading the property gives it, the serialisation of
    the nodes the cell holds. *)
Record Cell := {
  innerHTML : string;
  giftToggle : option bool;
}.

(** A [tr] of the table body. *)
Record Row := {
  dataset : gmap string string;
  classList : list string;
  children : list Cell;
  _originalValues : option (list string);
  style_display : string;
}.

(** The arguments of a [fetch] call. *)
Record Request := {
  url : string;
  method : string;
  headers : list (string * string);
  body : option string;
}.

(** How the decode callback of [startScanner] was built: without an
    [onDecoded] argument, or with the one of the [.scan-mark-read]
    handler. *)
Inductive ScanMode := DefaultScan | MarkReadScan.

(** Calls that leave the page. *)
Inductive Effect :=
  | Fetch (r : Request)
  | Alert (msg : string)
  | SetTimeout (ms : N)
  | Reload
  | ConsoleError (msg : string)
  | ScannerStart (mode : ScanMode)
  | ScannerStop
  | ScannerClear.

(** The [#error-message] element. *)
Record ErrorBox := {
  err_textContent : string;
  err_display : string;
}.

(** The gift part of the Add form: [#gift], [#gift-from-group] and
    [#gift_from]. *)
Record GiftForm := {
  gift_checked : bool;
  giftFromGroup_display : string;
  giftFromInput : option string;
}.

(** What the closure captures.  Elements the script tests for before
    use are optional; the others are used unguarded and so are taken to
    exist.  A row is referred to by its position in [rows]; a position
    past the end stands for [null]. *)
Record Page := {
  rows : list Row;
  searchInput : option string;
  liveOnlyCheckbox : option bool;
  errorMessageDiv : option ErrorBox;
  isbnInput : string;
  scannerContainer_display : string;
  giftForm : option GiftForm;
  onLine : bool;
  Html5Qrcode : bool;
  html5QrCode : bool;
  editingRow : option nat;
  log : list Effect;
}.

(** Field updates. *)

Definition set_rows (f : list Row → list Row) (p : Page) : Page :=
  {| rows := f (rows p); searchInput := searchInput p;
     liveOnlyCheckbox := liveOnlyCheckbox p;
     errorMessageDiv := errorMessageDiv p; isbnInput := isbnInput p;
     scannerContainer_display := scannerContainer_display p;
     giftForm := giftForm p; onLine := onLine p;
     Html5Qrcode := Html5Qrcode p; html5QrCode := html5QrCode p;
     editingRow := editingRow p; log := log p |}.

Definition set_searchInput (v : option string) (p : Page) : Page :=
  {| rows := rows p; searchInput := v;
     liveOnlyCheckbox := liveOnlyCheckbox p;
     errorMessageDiv := errorMessageDiv p; isbnInput := isbnInput p;
     scannerContainer_display := scannerContainer_display p;
     giftForm := giftForm p; onLine := onLine p;
     Html5Qrcode := Html5Qrcode p; html5QrCode := html5QrCode p;
     editingRow := editingRow p; log := log p |}.

Definition set_liveOnlyCheckbox (v : option bool) (p : Page) : Page :=
  {| rows := rows p; searchInput := searchInput p;
     liveOnlyCheckbox := v;
     errorMessageDiv := errorMessageDiv p; isbnInput := isbnInput p;
     scannerContainer_display := scannerContainer_display p;
     giftForm := giftForm p; onLine := onLine p;
     Html5Qrcode := Html5Qrcode p; html5QrCode := html5QrCode p;
     editingRow := editingRow p; log := log p |}.

Definition set_errorMessageDiv (v : option ErrorBox) (p : Page) : Page :=
  {| rows := rows p; searchInput := searchInput p;
     liveOnlyCheckbox := liveOnlyCheckbox p;
     errorMessageDiv := v; isbnInput := isbnInput p;
     scannerContainer_display := scannerContainer_display p;
     giftForm := giftForm p; onLine := onLine p;
     Html5Qrcode := Html5Qrcode p; html5QrCode := html5QrCode p;
     editingRow := editingRow p; log := log p |}.

Definition set_isbnInput (v : string) (p : Page) : Page :=
  {| rows := rows p; searchInput := searchInput p;
     liveOnlyCheckbox := liveOnlyCheckbox p;
     errorMessageDiv := errorMessageDiv p; isbnInput := v;
     scannerContainer_display := scannerContainer_display p;
     giftForm := giftForm p; onLine := onLine p;
     Html5Qrcode := Html5Qrcode p; html5QrCode := html5QrCode p;
     editingRow := editingRow p; log := log p |}.

Definition set_scannerContainer_display (v : string) (p : Page) : Page :=
  {| rows := rows p; searchInput := searchInput p;
     liveOnlyCheckbox := liveOnlyCheckbox p;
     errorMessageDiv := errorMessageDiv p; isbnInput := isbnInput p;
     scannerContainer_display := v;
     giftForm := giftForm p; onLine := onLine p;
     Html5Qrcode := Html5Qrcode p; html5QrCode := html5QrCode p;
     editingRow := editingRow p; log := log p |}.

Definition set_giftForm (v : option GiftForm) (p : Page) : Page :=
  {| rows := rows p; searchInput := searchInput p;
     liveOnlyCheckbox := liveOnlyCheckbox p;
     errorMessageDiv := errorMessageDiv p; isbnInput := isbnInput p;
     scannerContainer_display := scannerContainer_display p;
     giftForm := v; onLine := onLine p;
     Html5Qrcode := Html5Qrcode p; html5QrCode := html5QrCode p;
     editingRow := editingRow p; log := log p |}.

Definition set_html5QrCode (v : bool) (p : Page) : Page :=
  {| rows := rows p; searchInput := searchInput p;
     liveOnlyCheckbox := liveOnlyCheckbox p;
     errorMessageDiv := errorMessageDiv p; isbnInput := isbnInput p;
     scannerContainer_display := scannerContainer_display p;
     giftForm := giftForm p; onLine := onLine p;
     Html5Qrcode := Html5Qrcode p; html5QrCode := v;
     editingRow := editingRow p; log := log p |}.

Definition set_editingRow (v : option nat) (p : Page) : Page :=
  {| rows := rows p; searchInput := searchInput p;
     liveOnlyCheckbox := liveOnlyCheckbox p;
     errorMessageDiv := errorMessageDiv p; isbnInput := isbnInput p;
     scannerContainer_display := scannerContainer_display p;
     giftForm := giftForm p; onLine := onLine p;
     Html5Qrcode := Html5Qrcode p; html5QrCode := html5QrCode p;
     editingRow := v; log := log p |}.

(** Append a call to the log. *)
Definition emit (e : Effect) (p : Page) : Page :=
  {| rows := rows p; searchInput := searchInput p;
     liveOnlyCheckbox := liveOnlyCheckbox p;
     errorMessageDiv := errorMessageDiv p; isbnInput := isbnInput p;
     scannerContainer_display := scannerContainer_display p;
     giftForm := giftForm p; onLine := onLine p;
     Html5Qrcode := Html5Qrcode p; html5QrCode := html5QrCode p;
     editingRow := editingRow p; log := log p ++ [e] |}.

Definition set_dataset (f : gmap string string → gmap string string) (r : Row) : Row :=
  {| dataset := f (dataset r); classList := classList r;
     children := children r; _originalValues := _originalValues r;
     style_display := style_display r |}.

Definition set_classList (f : list string → list string) (r : Row) : Row :=
  {| dataset := dataset r; classList := f (classList r);
     children := children r; _originalValues := _originalValues r;
     style_display := style_display r |}.

Definition set_children (f : list Cell → list Cell) (r : Row) : Row :=
  {| dataset := dataset r; classList := classList r;
     children := f (children r); _originalValues := _originalValues r;
     style_display := style_display r |}.

Definition set__originalValues (v : option (list string)) (r : Row) : Row :=
  {| dataset := dataset r; classList := classList r;
     children := children r; _originalValues := v;
     style_display := style_display r |}.

Definition set_style_display (v : string) (r : Row) : Row :=
  {| dataset := dataset r; classList := classList r;
     children := children r; _originalValues := _originalValues r;
     style_display := v |}.


(** ** Statements that may throw

    A statement runs on the page and either completes or throws (here
    always the [TypeError] of a property access on [null] or
    [undefined]); what it wrote before throwing stays written. *)
Inductive Completion (A : Type) :=
  | Normal (a : A)
  | Throw.
Arguments Normal {A} a.
Arguments Throw {A}.

Definition M (A : Type) : Type := Page → Completion A * Page.

#[global] Instance M_ret : MRet M := λ A a p, (Normal a, p).
#[global] Instance M_bind : MBind M := λ A B f m p,
  match m p with
  | (Normal a, p') => f a p'
  | (Throw, p') => (Throw, p')
  end.

Definition get : M Page := λ p, (Normal p, p).
Definition modify (f : Page → Page) : M () := λ p, (Normal (), f p).
Definition throw {A} : M A := λ p, (Throw, p).

(** An event handler: an exception that reaches the top ends it. *)
Definition run (m : M ()) (p : Page) : Page := (m p).2.

(** Reading a property of the row: throws on [null]. *)
Definition getRow (row : nat) : M Row := λ p,
  match rows p !! row with
  | Some r => (Normal r, p)
  | None => (Throw, p)
  end.

Definition modifyRow (row : nat) (f : Row → Row) : M () :=
  modify (set_rows (alter f row)).

(** [row.dataset.key] *)
Definition dataset_get (r : Row) (key : string) : JsValue :=
  match dataset r !! key with
  | Some s => JsString s
  | None => JsUndefined
  end.

(** [DOMTokenList]: [contains], [add], [remove]. *)
Module ClassList.
Definition contains (t : string) (l : list string) : bool := bool_decide (t ∈ l).
Definition add (t : string) (l : list string) : list string :=
  if contains t l then l else l ++ [t].
Definition remove (t : string) (l : list string) : list string :=
  filter (λ u, u ≠ t) l.
End ClassList.

(** What the server sent back, or that [fetch] rejected.  [text] is
    the body as [resp.text()] resolves it, [None] when that rejects. *)
Inductive Outcome :=
  | Fulfilled (ok : bool) (text : option string)
  | Rejected.

(** What the Save handler reads from the inputs of the row. *)
Record EditForm := {
  edit_title : string;
  edit_authors : string;
  edit_tags : string;
  edit_gift_from : string;
  edit_gift_toggle : bool;
}.

(** What can happen to the page once the script has run: the user acts
    on an element that has a listener, or a promise or timer the script
    set up calls back.  Rows are given by position; [ScannerDecoded]
    names the callback the scanner was started with; a settled request
    carries what its handlers captured; [SaveClick] carries what the
    inputs of the row hold.  Every event is taken to be possible at any
    time, which is more than the page allows (the Save and Cancel
    buttons exist only while a row is being edited). *)
Inductive Event :=
  | StartScanClick
  | StopScanClick
  | ScannerStartRejected
  | ScannerDecoded (onDecoded : ScanMode) (decodedText : string)
  | ScannerStopSettled (stopped : bool)
  | ErrorTimerFired
  | GiftCheckboxChange (checked : bool)
  | SearchInputInput (value : string)
  | LiveOnlyChange (checked : bool)
  | LiveToggleChange (row : nat) (checked : bool)
  | LiveToggleSettled (row : nat) (newState : bool) (o : Outcome)
  | MarkReadClick (row : nat)
  | MarkReadSettled (o : Outcome)
  | ScanMarkReadClick
  | ReadByIsbnSettled (o : Outcome)
  | EditClick (row : nat)
  | SaveClick (row : nat) (f : EditForm)
  | SaveSettled (o : Outcome)
  | CancelClick (row : nat).

Section Script.
Context `{Platform}.

(** The cell that assigning [html] to [innerHTML] leaves: it holds what
    the parser builds from [html], and reads as the browser serialises
    that. *)
Definition parsed (html : string) : Cell :=
  {| innerHTML := readBack html; giftToggle := parseGiftToggle html |}.

(** [cells[k].innerHTML = html] on the cells of [row]. *)
Definition setCell (row k : nat) (html : string) : M () :=
  r ← getRow row;
  match children r !! k with
  | Some _ => modifyRow row (set_children <[k := parsed html]>)
  | None => throw
  end.

(** [row.querySelector('.gift-toggle')], as the [checked] of the match. *)
Fixpoint queryGiftToggle (cells : list Cell) : option bool :=
  match cells with
  | [] => None
  | c :: cs =>
      match giftToggle c with
      | Some b => Some b
      | None => queryGiftToggle cs
      end
  end.

(** *** [showError] *)
Definition showError (msg : string) (p : Page) : Page :=
  match errorMessageDiv p with
  | Some _ =>
      emit (SetTimeout 6000%N)
        (set_errorMessageDiv
           (Some {| err_textContent := msg; err_display := "block" |}) p)
  | None => emit (Alert msg) p
  end.

(** The callback that [showError] hands to [setTimeout]. *)
Definition hideError (p : Page) : Page :=
  match errorMessageDiv p with
  | Some _ =>
      set_errorMessageDiv
        (Some {| err_textContent := ""; err_display := "none" |}) p
  | None => p
  end.

(** *** [startScanner], [stopScanner] *)
Definition startScanner (onDecoded : ScanMode) (p : Page) : Page :=
  if negb (onLine p) then
    showError "You appear to be offline. Barcode scanning requires an internet connection to load the scanning library." p
  else if negb (Html5Qrcode p) then
    showError "Barcode scanner library failed to load. Please check your internet connection or try again later." p
  else
    emit (ScannerStart onDecoded)
      (set_html5QrCode true (set_scannerContainer_display "block" p)).

(** The [catch] of [html5QrCode.start]. *)
Definition startRejected (p : Page) : Page :=
  showError "Unable to access your camera. Please ensure a camera is available and that you have granted permission."
    (set_scannerContainer_display "none"
       (emit (ConsoleError "Error starting scanner") p)).

Definition stopScanner (p : Page) : Page :=
  if html5QrCode p then emit ScannerStop p
  else set_scannerContainer_display "none" p.

(** The [then] and [catch] of [html5QrCode.stop]. *)
Definition stopSettled (stopped : bool) (p : Page) : Page :=
  if stopped then set_scannerContainer_display "none" (emit ScannerClear p)
  else emit (ConsoleError "Error stopping scanner") p.

Definition formHeaders : list (string * string) :=
  [("Content-Type", "application/x-www-form-urlencoded")].

(** [fetch('/read_by_isbn', { method: 'POST', ..., body: `isbn=${encodeURIComponent(isbn)}` })] *)
Definition readByIsbn (isbn : string) : Effect :=
  Fetch {| url := "/read_by_isbn"; method := "POST";
           headers := formHeaders;
           body := Some ("isbn=" +:+ encodeURIComponent isbn) |}.

(** The test inside the [forEach] of the default decode callback. *)
Definition isbnMatches (scanned : string) (row : Row) : bool :=
  let rowIsbn := normalizeIsbn (JsString (js_or (dataset_get row "isbn") "")) in
  negb (Str.falsy rowIsbn) && negb (Str.falsy scanned)
    && bool_decide (rowIsbn = scanned).

(** The [forEach]: [matched] ends as the last row that passes the test. *)
Definition findMatched (scanned : string) (rs : list Row) : option Row :=
  foldl (λ matched row, if isbnMatches scanned row then Some row else matched)
    None rs.

(** Decode callback when [startScanner] got no [onDecoded]. *)
Definition onDecodedDefault (decodedText : string) (p : Page) : Page :=
  let scanned := normalizeIsbn (JsString decodedText) in
  match findMatched scanned (rows p) with
  | Some matched =>
      emit (readByIsbn (js_String (dataset_get matched "isbn")))
        (stopScanner p)
  | None =>
      showError "Scanned ISBN not found in your library — filled Add form."
        (stopScanner (set_isbnInput decodedText p))
  end.

(** Decode callback of the [.scan-mark-read] handler. *)
Definition onDecodedMarkRead (decodedText : string) (p : Page) : Page :=
  emit (readByIsbn decodedText) (stopScanner p).

(** The [then] and [catch] after both [/read_by_isbn] requests. *)
Definition readByIsbnSettled (o : Outcome) (p : Page) : Page :=
  match o with
  | Fulfilled true _ => emit Reload p
  | Fulfilled false (Some txt) =>
      showError ("Failed to mark as read: " +:+ txt) p
  | Fulfilled false None | Rejected =>
      showError "Network error while marking read."
        (emit (ConsoleError "Error marking read by ISBN") p)
  end.

(** *** Gift field of the Add form *)
Definition toggleGiftFromVisibility (p : Page) : Page :=
  match giftForm p with
  | Some g =>
      if gift_checked g then
        set_giftForm
          (Some {| gift_checked := gift_checked g;
                   giftFromGroup_display := "block";
                   giftFromInput := giftFromInput g |}) p
      else
        set_giftForm
          (Some {| gift_checked := gift_checked g;
                   giftFromGroup_display := "none";
                   giftFromInput := (λ _, "") <$> giftFromInput g |}) p
  | None => p
  end.

(** *** [filterRows] *)

(** The body of the [forEach]. *)
Definition filterRow (query : string) (liveOnly : bool) (row : Row) : Row :=
  let title := toLowerCase (js_or (dataset_get row "title") "") in
  let authors := toLowerCase (js_or (dataset_get row "authors") "") in
  let tags := toLowerCase (js_or (dataset_get row "tags") "") in
  let isLive :=
    bool_decide (toLowerCase (js_or (dataset_get row "live") "") = "true") in
  let matchesQuery :=
    Str.falsy query || Str.includes title query
      || Str.includes authors query || Str.includes tags query in
  let passesLiveFilter := negb liveOnly || isLive in
  if matchesQuery && passesLiveFilter then set_style_display "" row
  else set_style_display "none" row.

Definition filterQuery (p : Page) : string :=
  match searchInput p with
  | Some value => toLowerCase (trim value)
  | None => ""
  end.

Definition filterLiveOnly (p : Page) : bool :=
  match liveOnlyCheckbox p with
  | Some checked => checked
  | None => false
  end.

Definition filterRows (p : Page) : Page :=
  let query := filterQuery p in
  let liveOnly := filterLiveOnly p in
  set_rows (map (filterRow query liveOnly)) p.

(** *** [.live-toggle] and [.mark-read] *)

(** The [change] handler of a [.live-toggle] checkbox in [row], up to
    the [fetch]. *)
Definition liveToggleChange (row : nat) (newState : bool) : M () :=
  r ← getRow row;
  let id := js_String (dataset_get r "id") in
  modify (emit (Fetch {| url := "/update/" +:+ id; method := "POST";
                         headers := formHeaders;
                         body := Some ("is_live=" +:+ js_bool newState) |})).

(** Its [then] callback.  It takes no argument and tests nothing. *)
Definition liveToggleThen (row : nat) (newState : bool) (p : Page) : Page :=
  filterRows
    (set_rows (alter (set_dataset <["live" := js_bool newState]>) row) p).

(** There is a [then] and no [catch]. *)
Definition liveToggleSettled (row : nat) (newState : bool) (o : Outcome)
    (p : Page) : Page :=
  match o with
  | Fulfilled _ _ => liveToggleThen row newState p
  | Rejected => p
  end.

Definition markReadClick (row : nat) : M () :=
  r ← getRow row;
  let id := js_String (dataset_get r "id") in
  modify (emit (Fetch {| url := "/read/" +:+ id; method := "POST";
                         headers := []; body := None |})).

Definition markReadSettled (o : Outcome) (p : Page) : Page :=
  match o with
  | Fulfilled _ _ => emit Reload p
  | Rejected => p
  end.

(** *** Inline editing *)

(** [cancelEditing]'s [originalValues.forEach((html, idx) => { cells[idx].innerHTML = html; })],
    from index [idx] on. *)
Fixpoint restoreCells (row idx : nat) (originalValues : list string) : M () :=
  match originalValues with
  | [] => mret ()
  | html :: rest => setCell row idx html;; restoreCells row (S idx) rest
  end.

Definition cancelEditing (row : nat) : M () :=
  r ← getRow row;
  if negb (ClassList.contains "editing" (classList r)) then mret ()
  else
    let originalValues := default [] (_originalValues r) in
    restoreCells row 0 originalValues;;
    modifyRow row (set_classList (ClassList.remove "editing"));;
    modify (set_editingRow None).

(** [v || cell.textContent]: the cell is only touched when [v] is falsy. *)
Definition orTextContent (v : JsValue) (cell : option Cell) : M string :=
  if js_not v then
    match cell with
    | Some c => mret (textContent (innerHTML c))
    | None => throw
    end
  else mret (js_String v).

(** [`<input type="text" class="${cls}" value="${escapeHtml(v)}">`] *)
Definition textInput (cls v : string) : string :=
  "<input type=" +:+ Str.dq +:+ "text" +:+ Str.dq
    +:+ " class=" +:+ Str.dq +:+ cls +:+ Str.dq
    +:+ " value=" +:+ Str.dq +:+ escapeHtml v +:+ Str.dq +:+ ">".

(** [`<input type="checkbox" class="edit-gift-toggle" ${isGift ? 'checked' : ''}>`] *)
Definition giftInput (isGift : bool) : string :=
  "<input type=" +:+ Str.dq +:+ "checkbox" +:+ Str.dq
    +:+ " class=" +:+ Str.dq +:+ "edit-gift-toggle" +:+ Str.dq
    +:+ " " +:+ (if isGift then "checked" else "") +:+ ">".

(** A [button] with the given [className] and [textContent], serialised. *)
Definition button (cls text : string) : string :=
  "<button class=" +:+ Str.dq +:+ cls +:+ Str.dq +:+ ">" +:+ text
    +:+ "</button>".

(** [cells[k].appendChild(el)], for an element serialised as [html] that
    holds no [.gift-toggle]: the cell reads as before, followed by the
    new last child. *)
Definition appendChild (row k : nat) (html : string) : M () :=
  r ← getRow row;
  match children r !! k with
  | Some _ =>
      modifyRow row
        (set_children
           (alter (λ c, {| innerHTML := innerHTML c +:+ html;
                           giftToggle := giftToggle c |}) k))
  | None => throw
  end.

Definition enableEditing (row : nat) : M () :=
  p ← get;
  match editingRow p with
  | Some e => if bool_decide (e ≠ row) then cancelEditing e else mret ()
  | None => mret ()
  end;;
  r ← getRow row;
  if ClassList.contains "editing" (classList r) then mret ()
  else
    modify (set_editingRow (Some row));;
    modifyRow row (set_classList (ClassList.add "editing"));;
    let cells := children r in
    let originalValues := innerHTML <$> cells in
    modifyRow row (set__originalValues (Some originalValues));;
    title ← orTextContent (dataset_get r "title") (cells !! 0);
    authors ← orTextContent (dataset_get r "authors") (cells !! 2);
    tags ← orTextContent (dataset_get r "tags") (cells !! 3);
    giftFrom ← orTextContent (dataset_get r "giftFrom") (cells !! 5);
    let isGift := default false (queryGiftToggle cells) in
    setCell row 0 (textInput "edit-title" title);;
    setCell row 2 (textInput "edit-authors" authors);;
    setCell row 3 (textInput "edit-tags" tags);;
    setCell row 5 (textInput "edit-gift-from" giftFrom);;
    setCell row 6 (giftInput isGift);;
    setCell row 8 "";;
    appendChild row 8 (button "save-edit" "Save");;
    appendChild row 8 (button "cancel-edit" "Cancel").

(** The click handler of the Save button, up to the [fetch]. *)
Definition saveClick (row : nat) (f : EditForm) : M () :=
  r ← getRow row;
  let id := js_String (dataset_get r "id") in
  let params :=
    [("title", trim (edit_title f));
     ("authors", trim (edit_authors f));
     ("tags", trim (edit_tags f));
     ("gift_from", trim (edit_gift_from f));
     ("is_gift", js_bool (edit_gift_toggle f))] in
  modify (emit (Fetch {| url := "/update/" +:+ id; method := "POST";
                         headers := formHeaders;
                         body := Some (urlencoded params) |})).

Definition saveSettled (o : Outcome) (p : Page) : Page :=
  match o with
  | Fulfilled true _ => emit Reload p
  | Fulfilled false _ => showError "Failed to save changes." p
  | Rejected => showError "An error occurred while saving changes." p
  end.

(** *** The listeners *)

(** One turn of the event loop. *)
Definition handle (ev : Event) (p : Page) : Page :=
  match ev with
  | StartScanClick => startScanner DefaultScan p
  | StopScanClick => stopScanner p
  | ScannerStartRejected => startRejected p
  | ScannerDecoded DefaultScan decodedText => onDecodedDefault decodedText p
  | ScannerDecoded MarkReadScan decodedText => onDecodedMarkRead decodedText p
  | ScannerStopSettled stopped => stopSettled stopped p
  | ErrorTimerFired => hideError p
  | GiftCheckboxChange checked =>
      match giftForm p with
      | Some g =>
          toggleGiftFromVisibility
            (set_giftForm
               (Some {| gift_checked := checked;
                        giftFromGroup_display := giftFromGroup_display g;
                        giftFromInput := giftFromInput g |}) p)
      | None => p
      end
  | SearchInputInput value =>
      match searchInput p with
      | Some _ => filterRows (set_searchInput (Some value) p)
      | None => p
      end
  | LiveOnlyChange checked =>
      match liveOnlyCheckbox p with
      | Some _ => filterRows (set_liveOnlyCheckbox (Some checked) p)
      | None => p
      end
  | LiveToggleChange row checked => run (liveToggleChange row checked) p
  | LiveToggleSettled row newState o => liveToggleSettled row newState o p
  | MarkReadClick row => run (markReadClick row) p
  | MarkReadSettled o => markReadSettled o p
  | ScanMarkReadClick => startScanner MarkReadScan p
  | ReadByIsbnSettled o => readByIsbnSettled o p
  | EditClick row => run (enableEditing row) p
  | SaveClick row f => run (saveClick row f) p
  | SaveSettled o => saveSettled o p
  | CancelClick row => run (cancelEditing row) p
  end.

(** What the closure does by itself when the page has loaded, after
    attaching the listeners. *)
Definition onLoad (p : Page) : Page :=
  filterRows (toggleGiftFromVisibility p).

(** The page after a sequence of events. *)
Definition handleAll (evs : list Event) (p : Page) : Page :=
  foldl (λ q ev, handle ev q) p evs.
End Script.

(** ** Vocabulary of the properties *)

(** The row's [data-key] attribute, empty when the row has none. *)
Definition data (row : Row) (key : string) : string :=
  default "" (dataset row !! key).

(** [q] occurs in [s]. *)
Definition substring (q s : string) : Prop :=
  ∃ pre post, s = pre +:+ q +:+ post.

Definition displayed (row : Row) : Prop := style_display row = "".
Definition hidden (row : Row) : Prop := style_display row = "none".

(** A request to one of [/update/:id], [/read/:id], [/read_by_isbn]
    with method POST. *)
Definition postToKnownEndpoint (r : Request) : Prop :=
  method r = "POST"
  ∧ (url r = "/read_by_isbn"
     ∨ (∃ id, url r = "/update/" +:+ id)
     ∨ (∃ id, url r = "/read/" +:+ id)).

(** The filter condition in the words of the interface: the query is
    empty or occurs in the lowercased title, authors or tags, and the
    live-only box is unchecked or the lowercased [data-live] is [true]. *)
Definition passesFilter `{Platform} (query : string) (liveOnly : bool)
    (row : Row) : Prop :=
  (query = ""
   ∨ substring query (toLowerCase (data row "title"))
   ∨ substring query (toLowerCase (data row "authors"))
   ∨ substring query (toLowerCase (data row "tags")))
  ∧ (liveOnly = false ∨ toLowerCase (data row "live") = "true").

Definition isEditing (r : Row) : Prop := "editing" ∈ classList r.

(** At most one row carries the [editing] class, and [editingRow] refers
    to it: a row that carries the class is [editingRow], and
    [editingRow], when set, is a row that carries it. *)
Definition editingInvariant (p : Page) : Prop :=
  (∀ i r, rows p !! i = Some r → isEditing r → editingRow p = Some i)
  ∧ (∀ i, editingRow p = Some i → ∃ r, rows p !! i = Some r ∧ isEditing r).

(** What of a row is not its display style. *)
Definition sameButDisplay (r r' : Row) : Prop :=
  dataset r' = dataset r ∧ classList r' = classList r
  ∧ children r' = children r ∧ _originalValues r' = _originalValues r.

(** A statement keeps [Q] when [Q] holds of the page it leaves, however
    it completes. *)
Definition preserves {A} (Q : Page → Prop) (m : M A) : Prop :=
  ∀ p, Q p → Q (m p).2.

(** Every request in the log of [p] was already in [before] or is a
    POST to one of the three endpoints. *)
Definition fetchesKnown (before : list Effect) (p : Page) : Prop :=
  ∀ r, Fetch r ∈ log p → Fetch r ∈ before ∨ postToKnownEndpoint r.

(** A call that tells the user or the console something, or reloads
    the page. *)
Definition isNotice (e : Effect) : Prop :=
  match e with
  | Alert _ | SetTimeout _ | ConsoleError _ | Reload => True
  | _ => False
  end.

(** A statement is specified by what holds when it completes and what
    holds when it throws. *)
Definition hoare {A} (P : Page → Prop) (m : M A) (Qn : A → Page → Prop)
    (Qt : Page → Prop) : Prop :=
  ∀ p, P p →
    match m p with
    | (Normal a, p') => Qn a p'
    | (Throw, p') => Qt p'
    end.

(** A statement leaves a part of the page as it was, however it
    completes. *)
Definition keeps {A V} (view : Page → V) (m : M A) : Prop :=
  ∀ p, view (m p).2 = view p.

(** The part of the page the editing invariant is about. *)
Definition classView (p : Page) : option nat * list (list string) :=
  (editingRow p, classList <$> rows p).


(** Of one row: its classes, its saved values and how many cells it
    has. *)
Definition shapeAt (row : nat) (p : Page)
    : option (list string * option (list string) * nat) :=
  (λ r, (classList r, _originalValues r, length (children r))) <$> rows p !! row.

(** The markup of the cells of a row. *)
Definition cellsHTML (r : Row) : list string := innerHTML <$> children r.

(** The row is in editing mode and holds the markup of [r] as saved
    values, with as many cells as [r]. *)
Definition entered (row : nat) (r : Row) (p : Page) : Prop :=
  ∃ cl, shapeAt row p = Some (cl, Some (cellsHTML r), length (children r))
        ∧ "editing" ∈ cl.

(** The row is in editing mode with [vals] as its saved values, one
    for each cell. *)
Definition saved (row : nat) (vals : list string) (p : Page) : Prop :=
  ∃ cl, shapeAt row p = Some (cl, Some vals, length vals) ∧ "editing" ∈ cl.

(** The row is not in editing mode, and each cell reads as the browser
    reads back the markup that [vals] holds for it. *)
Definition reassigned `{Platform} (row : nat) (vals : list string)
    (p : Page) : Prop :=
  ∃ r2, rows p !! row = Some r2 ∧ cellsHTML r2 = readBack <$> vals
        ∧ ¬ isEditing r2.

(** The edit in progress can be cancelled: the row that [editingRow]
    refers to has saved values, one for each of its cells. *)
Definition cancellable (p : Page) : Prop :=
  ∀ e re, editingRow p = Some e → rows p !! e = Some re →
    ∃ vals, _originalValues re = Some vals
            ∧ length vals = length (children re).

(** What [cancellable] reads of the page. *)
Definition savedView (p : Page)
    : option nat * list (option (list string) * nat) :=
  (editingRow p, (λ r, (_originalValues r, length (children r))) <$> rows p).


(** One of the five characters [escapeHtml] replaces. *)
Definition isSpecial (c : ascii) : bool :=
  Str.isChar "&"%char c || Str.isChar Str.dquote c || Str.isChar "'"%char c
    || Str.isChar "<"%char c || Str.isChar ">"%char c.

(** The [data-*] attributes of the rows other than [data-live]. *)
Definition fixedData (p : Page) : list (gmap string string) :=
  (λ r, delete "live" (dataset r)) <$> rows p.

(** What inline editing works on: the cells, classes and saved values
    of the rows, and [editingRow]. *)
Definition editView (p : Page)
    : option nat * list (list Cell * list string * option (list string)) :=
  (editingRow p, (λ r, (children r, classList r, _originalValues r)) <$> rows p).

(** A click on an Edit or Cancel button. *)
Definition isEditEvent (ev : Event) : bool :=
  match ev with
  | EditClick _ | CancelClick _ => true
  | _ => false
  end.

(** Everything inline editing has no business with: the data and the
    display of the rows, the controls, the error box, the Add form, the
    scanner and the log. *)
Definition outsideEditing (p : Page) :=
  ((λ r, (dataset r, style_display r)) <$> rows p,
   searchInput p, liveOnlyCheckbox p, errorMessageDiv p, isbnInput p,
   scannerContainer_display p, giftForm p, html5QrCode p, log p).

(** The rows other than [row], each at its position. *)
Definition otherRows (row : nat) (p : Page) : list (option Row) :=
  <[row := None]> (Some <$> rows p).

(** Row [row], which was [r], is the one being edited: it carries the
    class, holds the markup of [r] as saved values and has as many
    cells; [editingRow] is [row]; the other rows are those of [others]. *)
Definition editingNow (row : nat) (r : Row) (others : list (option Row))
    (p : Page) : Prop :=
  entered row r p ∧ editingRow p = Some row ∧ otherRows row p = others.


(** The part of the page [editingNow] is about. *)
Definition nowView (row : nat) (p : Page) :=
  (shapeAt row p, (classView p, otherRows row p)).


(** The events after which the script reloads the page. *)
Definition reloads (ev : Event) : bool :=
  match ev with
  | MarkReadSettled (Fulfilled _ _) => true
  | ReadByIsbnSettled (Fulfilled ok _) => ok
  | SaveSettled (Fulfilled ok _) => ok
  | _ => false
  end.

(** What the filter reads and writes: the data and the display of the
    rows and the two controls. *)
Definition filterView (p : Page) :=
  ((λ r, (dataset r, style_display r)) <$> rows p,
   searchInput p, liveOnlyCheckbox p).

(** Every row has the display [filterRows] would give it. *)
Definition filtered `{Platform} (p : Page) : Prop :=
  Forall (λ r, style_display (filterRow (filterQuery p) (filterLiveOnly p) r)
               = style_display r) (rows p).

(** ** A concrete platform

    Code units below 128 only, enough to evaluate the script on sample
    pages. *)
Module Sample.

Definition lowerChar (c : ascii) : ascii :=
  let n := nat_of_ascii c in
  if (65 <=? n)%nat && (n <=? 90)%nat then ascii_of_nat (n + 32) else c.

Fixpoint lower (s : string) : string :=
  match s with
  | EmptyString => EmptyString
  | String c s' => String (lowerChar c) (lower s')
  end.

Fixpoint trimStart (s : string) : string :=
  match s with
  | String c s' => if Ascii.is_space c then trimStart s' else s
  | EmptyString => EmptyString
  end.

Definition trimBoth (s : string) : string :=
  String.rev (trimStart (String.rev (trimStart s))).

(** Pairs are joined with [=] and [&]; nothing is percent-encoded. *)
Fixpoint joinPairs (l : list (string * string)) : string :=
  match l with
  | [] => ""
  | [(k, v)] => k +:+ "=" +:+ v
  | (k, v) :: rest => k +:+ "=" +:+ v +:+ "&" +:+ joinPairs rest
  end.

(** Markup, as far as the sample pages go: start tags with bare or
    double-quoted attributes, end tags, text, and the five character
    references [escapeHtml] writes.  Tags are kept as they are met (no
    element is closed or moved by the reader), so this covers markup
    that nests properly. *)
Inductive Token :=
  | StartTag (name : string) (attrs : list (string * string))
  | EndTag (name : string)
  | Chars (text : string).

(** Where the tokenizer is. *)
Inductive Where :=
  | InText (text : string)
  | TagOpen
  | InName (name : string)
  | InEndName (name : string)
  | InAttrs (name : string) (attrs : list (string * string))
  | InAttrName (name : string) (attrs : list (string * string)) (a : string)
  | AfterEquals (name : string) (attrs : list (string * string)) (a : string)
  | InValue (name : string) (attrs : list (string * string)) (a : string)
      (quoted : bool) (v : string).

Definition snoc (s : string) (c : ascii) : string := s +:+ String c "".

Definition chars (text : string) : list Token :=
  if Str.falsy text then [] else [Chars text].

Definition startTag (name : string) (attrs : list (string * string)) : Token :=
  StartTag (lower name) attrs.

Fixpoint tokens (w : Where) (s : string) : list Token :=
  match s with
  | EmptyString =>
      match w with
      | InText text => chars text
      | _ => []
      end
  | String c s' =>
      match w with
      | InText text =>
          if Str.isChar "<"%char c then chars text ++ tokens TagOpen s'
          else tokens (InText (snoc text c)) s'
      | TagOpen =>
          if Str.isChar "/"%char c then tokens (InEndName "") s'
          else tokens (InName (String c "")) s'
      | InName n =>
          if Str.isChar ">"%char c then startTag n [] :: tokens (InText "") s'
          else if Ascii.is_space c then tokens (InAttrs n []) s'
          else tokens (InName (snoc n c)) s'
      | InEndName n =>
          if Str.isChar ">"%char c then EndTag (lower n) :: tokens (InText "") s'
          else tokens (InEndName (snoc n c)) s'
      | InAttrs n l =>
          if Str.isChar ">"%char c then startTag n l :: tokens (InText "") s'
          else if Ascii.is_space c then tokens (InAttrs n l) s'
          else tokens (InAttrName n l (String c "")) s'
      | InAttrName n l a =>
          if Str.isChar "="%char c then tokens (AfterEquals n l a) s'
          else if Str.isChar ">"%char c
          then startTag n (l ++ [(lower a, "")]) :: tokens (InText "") s'
          else if Ascii.is_space c then tokens (InAttrs n (l ++ [(lower a, "")])) s'
          else tokens (InAttrName n l (snoc a c)) s'
      | AfterEquals n l a =>
          if Str.isChar Str.dquote c then tokens (InValue n l a true "") s'
          else if Str.isChar ">"%char c
          then startTag n (l ++ [(lower a, "")]) :: tokens (InText "") s'
          else tokens (InValue n l a false (String c "")) s'
      | InValue n l a true v =>
          if Str.isChar Str.dquote c
          then tokens (InAttrs n (l ++ [(lower a, decodeEntities v)])) s'
          else tokens (InValue n l a true (snoc v c)) s'
      | InValue n l a false v =>
          if Str.isChar ">"%char c
          then startTag n (l ++ [(lower a, decodeEntities v)])
                 :: tokens (InText "") s'
          else if Ascii.is_space c
          then tokens (InAttrs n (l ++ [(lower a, decodeEntities v)])) s'
          else tokens (InValue n l a false (snoc v c)) s'
      end
  end.

(** What the fragment parser makes of [html]. *)
Definition parse (html : string) : list Token := tokens (InText "") html.

(** Serialising escapes the ampersand, and in text the angle brackets,
    in an attribute value the double quote. *)
Definition escapeText (s : string) : string :=
  Str.replace_g (Str.isChar ">"%char) "&gt;"
    (Str.replace_g (Str.isChar "<"%char) "&lt;"
      (Str.replace_g (Str.isChar "&"%char) "&amp;" s)).

Definition escapeValue (s : string) : string :=
  Str.replace_g (Str.isChar Str.dquote) "&quot;"
    (Str.replace_g (Str.isChar "&"%char) "&amp;" s).

Definition attribute (a : string * string) : string :=
  " " +:+ a.1 +:+ "=" +:+ Str.dq +:+ escapeValue a.2 +:+ Str.dq.

(** The elements after whose start tag the parser drops a line feed. *)
Definition dropsLineFeed (name : string) : bool :=
  bool_decide (name ∈ ["pre"; "textarea"; "listing"]).

Definition afterLineFeed (text : string) : string :=
  match text with
  | String "010"%char rest => rest
  | _ => text
  end.

(** The markup the nodes serialise to.  [first] says that the text to
    come is the first thing inside a [pre], [textarea] or [listing]:
    the parser did not keep a line feed it starts with. *)
Fixpoint serialize (first : bool) (ts : list Token) : string :=
  match ts with
  | [] => ""
  | StartTag n l :: rest =>
      "<" +:+ n +:+ foldr (λ a acc, attribute a +:+ acc) "" l +:+ ">"
        +:+ serialize (dropsLineFeed n) rest
  | EndTag n :: rest => "</" +:+ n +:+ ">" +:+ serialize false rest
  | Chars text :: rest =>
      escapeText (decodeEntities (if first then afterLineFeed text else text))
        +:+ serialize false rest
  end.

Definition reserialize (html : string) : string := serialize false (parse html).

(** The text of the nodes that read as [html]. *)
Fixpoint text (ts : list Token) : string :=
  match ts with
  | [] => ""
  | Chars t :: rest => decodeEntities t +:+ text rest
  | _ :: rest => text rest
  end.

Fixpoint words (cur : string) (s : string) : list string :=
  match s with
  | EmptyString => [cur]
  | String c s' =>
      if Ascii.is_space c then cur :: words "" s' else words (snoc cur c) s'
  end.

Fixpoint attributeOf (name : string) (attrs : list (string * string))
    : option string :=
  match attrs with
  | [] => None
  | (a, v) :: rest => if bool_decide (a = name) then Some v else attributeOf name rest
  end.

Definition hasClass (cls : string) (attrs : list (string * string)) : bool :=
  bool_decide (cls ∈ words "" (default "" (attributeOf "class" attrs))).

(** The first element with class [gift-toggle] is checked when its
    start tag has the [checked] attribute. *)
Fixpoint giftToggleOf (ts : list Token) : option bool :=
  match ts with
  | [] => None
  | StartTag n l :: rest =>
      if hasClass "gift-toggle" l then Some (bool_decide ("checked" ∈ l.*1))
      else giftToggleOf rest
  | _ :: rest => giftToggleOf rest
  end.

Definition platform : Platform :=
  {| toLowerCase := lower;
     trim := trimBoth;
     encodeURIComponent := id;
     urlencoded := joinPairs;
     textContent := λ html, text (parse html);
     parseGiftToggle := λ html, giftToggleOf (parse html);
     readBack := reserialize |}.

Definition cell (html : string) : Cell :=
  {| innerHTML := html; giftToggle := None |}.

Definition book (id isbn title authors tags live : string) : Row :=
  {| dataset :=
       <["id" := id]> (<["isbn" := isbn]> (<["title" := title]>
         (<["authors" := authors]> (<["tags" := tags]>
           (<["live" := live]> ∅)))));
     classList := [];
     children :=
       [cell title; cell isbn; cell authors; cell tags; cell "";
        cell ""; cell ""; cell "";
        cell ("<button class=" +:+ Str.dq +:+ "edit-book" +:+ Str.dq
                +:+ ">Edit</button>")];
     _originalValues := None;
     style_display := "" |}.

Definition page (rs : list Row) (search : string) (liveOnly : bool) : Page :=
  {| rows := rs;
     searchInput := Some search;
     liveOnlyCheckbox := Some liveOnly;
     errorMessageDiv := Some {| err_textContent := ""; err_display := "none" |};
     isbnInput := "";
     scannerContainer_display := "none";
     giftForm := None;
     onLine := true;
     Html5Qrcode := true;
     html5QrCode := false;
     editingRow := None;
     log := [] |}.

Definition hobbit : Row :=
  book "1" "978-0-261-10221-7" "The Hobbit" "J. R. R. Tolkien" "fantasy" "true".
Definition emma : Row :=
  book "2" "9780141439587" "Emma" "Jane Austen" "classic" "false".

Definition lineFeed : string := String "010"%char "".


End Sample.

(** * Properties *)

#[local] Arguments String.append !_ _ / : simpl nomatch.

(** ** Strings *)

Section StringFacts.

Lemma append_nil_r (s : string) : s +:+ "" = s.
Proof. induction s; simpl; congruence. Qed.

Lemma to_list_app (a b : string) :
  Str.to_list (a +:+ b) = Str.to_list a ++ Str.to_list b.
Proof. induction a; simpl; congruence. Qed.

Lemma falsy_true (s : string) : Str.falsy s = true ↔ s = "".
Proof. unfold Str.falsy. by rewrite bool_decide_eq_true. Qed.


(** Removing a class of characters leaves none of them. *)
Lemma replace_g_delete_Forall (class : ascii → bool) (s : string) :
  Forall (λ c, class c = false) (Str.to_list (Str.replace_g class "" s)).
Proof.
  induction s as [|c s IH]; simpl; [constructor|].
  destruct (class c) eqn:E; simpl; auto.
Qed.

(** A string without the class is left alone. *)
Lemma replace_g_none (class : ascii → bool) (by_ s : string) :
  Forall (λ c, class c = false) (Str.to_list s) →
  Str.replace_g class by_ s = s.
Proof.
  induction s as [|c s IH]; simpl; [done|].
  intros [Hc Hs]%Forall_cons. rewrite Hc. f_equal. auto.
Qed.

Lemma startsWith_spec (s q : string) :
  Str.startsWith s q = true ↔ ∃ post, s = q +:+ post.
Proof.
  revert s. induction q as [|a q IH]; intros s; simpl.
  - split; [intros _; by exists s | done].
  - destruct s as [|b s].
    + split; [done|]. by intros [? ?].
    + rewrite andb_true_iff, bool_decide_eq_true, IH. split.
      * intros [-> [post ->]]. eauto.
      * intros [post [= -> ->]]. eauto.
Qed.

(** [includes] is the substring relation. *)
Lemma includes_spec (s q : string) :
  Str.includes s q = true ↔ ∃ pre post, s = pre +:+ q +:+ post.
Proof.
  induction s as [|c s IH]; simpl; rewrite orb_true_iff, startsWith_spec.
  - split.
    + intros [[post E]|?]; [|done]. by exists "", post.
    + intros (pre & post & E). left. destruct pre; [by eauto|done].
  - rewrite IH. split.
    + intros [[post ->]|(pre & post & ->)].
      * by exists "", post.
      * by exists (String c pre), post.
    + intros (pre & post & E). destruct pre as [|a pre]; simpl in E.
      * left. eauto.
      * right. injection E as -> ->. eauto.
Qed.

End StringFacts.

(** ** [normalizeIsbn] *)

(** C8: [normalizeIsbn] is defined on every string and on null and
    undefined; its result holds decimal digits only; applying it to its
    own result changes nothing; and null, undefined and the empty string
    all give the empty string. *)
Theorem normalizeIsbn_digits_idempotent (s : JsValue) :
  Forall (λ c, Str.isDigit c = true) (Str.to_list (normalizeIsbn s))
  ∧ normalizeIsbn (JsString (normalizeIsbn s)) = normalizeIsbn s
  ∧ normalizeIsbn JsNull = ""
  ∧ normalizeIsbn JsUndefined = ""
  ∧ normalizeIsbn (JsString "") = "".
Proof.
  assert (Hd : ∀ t, Forall (λ c, Str.isDigit c = true)
                      (Str.to_list (Str.replace_g Str.nonDigit "" t))).
  { intros t. eapply Forall_impl; [apply replace_g_delete_Forall|].
    intros c. unfold Str.nonDigit. by destruct (Str.isDigit c). }
  split; [|split; [|by repeat split]].
  - unfold normalizeIsbn. destruct (js_not s); [constructor | apply Hd].
  - assert (Hstr : ∀ t, normalizeIsbn (JsString t)
                        = Str.replace_g Str.nonDigit "" t).
    { intros t. unfold normalizeIsbn, js_not, js_String.
      destruct (Str.falsy t) eqn:Hf; [|done].
      by apply falsy_true in Hf as ->. }
    destruct s as [| |t]; [reflexivity..|].
    rewrite !Hstr. apply replace_g_none.
    eapply Forall_impl; [apply Hd|].
    intros c Hc. unfold Str.nonDigit. by rewrite Hc.
Qed.

(** ** [escapeHtml] *)

Section EscapeFacts.

(** The chain of five replacements acts on each code unit by itself. *)
Lemma escapeHtml_cons (c : ascii) (s : string) :
  escapeHtml (String c s) = escapeChar c +:+ escapeHtml s.
Proof. destruct c as [[] [] [] [] [] [] [] []]; reflexivity. Qed.

Lemma amp_peel (a : ascii) (x pre post : string) :
  String a x = pre +:+ String "&"%char post → a ≠ "&"%char →
  ∃ pre', pre = String a pre' ∧ x = pre' +:+ String "&"%char post.
Proof.
  destruct pre as [|b pre]; simpl; intros [= -> ->]; [done|eauto].
Qed.

Lemma decodeEntities_other (c : ascii) (r : string) :
  c ≠ "&"%char → decodeEntities (String c r) = String c (decodeEntities r).
Proof. destruct c as [[] [] [] [] [] [] [] []]; intros; try reflexivity; done. Qed.

Lemma attributeValue_app (t rest : string) :
  Forall (λ c, c ≠ Str.dquote) (Str.to_list t) →
  attributeValue (t +:+ Str.dq +:+ rest) = t.
Proof.
  induction t as [|c t IH]; simpl; [done|].
  intros [Hc Ht]%Forall_cons. unfold Str.isChar.
  rewrite bool_decide_eq_false_2 by done. f_equal. auto.
Qed.

End EscapeFacts.

Ltac peel H :=
  apply amp_peel in H; [destruct H as (? & -> & H) | done].

(** C10: the output of [escapeHtml] holds none of the raw characters
    less-than, greater-than, double quote and apostrophe; every
    ampersand in it starts one of the five entities; decoding the five
    entities gives the input back; and placed between double quotes as
    an attribute value, the output reaches to the closing quote, so the
    value read back and decoded is the input. *)
Theorem escapeHtml_safe (str : string) :
  Forall rawFree (Str.to_list (escapeHtml str))
  ∧ (∀ pre post, escapeHtml str = pre +:+ String "&"%char post →
       ∃ tail rest, tail ∈ entityTails ∧ post = tail +:+ rest)
  ∧ decodeEntities (escapeHtml str) = str
  ∧ (∀ rest, attributeValue (escapeHtml str +:+ Str.dq +:+ rest) = escapeHtml str
             ∧ decodeEntities (attributeValue (escapeHtml str +:+ Str.dq +:+ rest)) = str).
Proof.
  assert (Hraw : ∀ s, Forall rawFree (Str.to_list (escapeHtml s))).
  { induction s as [|c s IH]; [constructor|].
    rewrite escapeHtml_cons, to_list_app. apply Forall_app. split; [|done].
    unfold escapeChar, Str.isChar.
    repeat case_bool_decide; simpl; repeat constructor; done. }
  assert (Hdec : ∀ s, decodeEntities (escapeHtml s) = s).
  { induction s as [|c s IH]; [done|].
    rewrite escapeHtml_cons. unfold escapeChar, Str.isChar.
    repeat case_bool_decide; subst; [by simpl; rewrite IH..|].
    change (String c "" +:+ escapeHtml s) with (String c (escapeHtml s)).
    rewrite decodeEntities_other by done. by rewrite IH. }
  split; [apply Hraw|]. split; [|split; [apply Hdec|]].
  - induction str as [|c s IH]; intros pre post E.
    { destruct pre; done. }
    rewrite escapeHtml_cons in E. unfold escapeChar, Str.isChar in E.
    unfold entityTails.
    repeat case_bool_decide; subst; simpl in E.
    + destruct pre as [|a pre]; simpl in E.
      * injection E as <-. exists "amp;", (escapeHtml s). split; [apply list_elem_of_In; simpl; tauto|done].
      * injection E as <- E. do 4 peel E. eauto.
    + destruct pre as [|a pre]; simpl in E.
      * injection E as <-. exists "quot;", (escapeHtml s). split; [apply list_elem_of_In; simpl; tauto|done].
      * injection E as <- E. do 5 peel E. eauto.
    + destruct pre as [|a pre]; simpl in E.
      * injection E as <-. exists "#39;", (escapeHtml s). split; [apply list_elem_of_In; simpl; tauto|done].
      * injection E as <- E. do 4 peel E. eauto.
    + destruct pre as [|a pre]; simpl in E.
      * injection E as <-. exists "lt;", (escapeHtml s). split; [apply list_elem_of_In; simpl; tauto|done].
      * injection E as <- E. do 3 peel E. eauto.
    + destruct pre as [|a pre]; simpl in E.
      * injection E as <-. exists "gt;", (escapeHtml s). split; [apply list_elem_of_In; simpl; tauto|done].
      * injection E as <- E. do 3 peel E. eauto.
    + peel E. eauto.
  - intros rest.
    assert (attributeValue (escapeHtml str +:+ Str.dq +:+ rest) = escapeHtml str) as ->.
    { apply attributeValue_app. eapply Forall_impl; [apply Hraw|].
      by intros c (_ & _ & ? & _). }
    auto.
Qed.

(** ** Filtering *)

Section FilterFacts.
Context `{Platform}.

Lemma js_or_data (row : Row) (key : string) :
  js_or (dataset_get row key) "" = data row key.
Proof.
  unfold js_or, dataset_get, data.
  destruct (dataset row !! key) as [s|]; simpl; [|done].
  destruct (Str.falsy s) eqn:Hf; [|done].
  by apply falsy_true in Hf as ->.
Qed.

Lemma filterRow_frame (query : string) (liveOnly : bool) (row : Row) :
  sameButDisplay row (filterRow query liveOnly row).
Proof. unfold filterRow. by case_match. Qed.

Lemma passesFilter_frame (query : string) (liveOnly : bool) (r r' : Row) :
  dataset r' = dataset r →
  passesFilter query liveOnly r' ↔ passesFilter query liveOnly r.
Proof. intros E. unfold passesFilter, data. by rewrite E. Qed.

(** The test of [filterRow] is the filter condition. *)
Lemma filterRow_test (query : string) (liveOnly : bool) (row : Row) :
  let title := toLowerCase (js_or (dataset_get row "title") "") in
  let authors := toLowerCase (js_or (dataset_get row "authors") "") in
  let tags := toLowerCase (js_or (dataset_get row "tags") "") in
  let isLive :=
    bool_decide (toLowerCase (js_or (dataset_get row "live") "") = "true") in
  (Str.falsy query || Str.includes title query
     || Str.includes authors query || Str.includes tags query)
    && (negb liveOnly || isLive) = true
  ↔ passesFilter query liveOnly row.
Proof.
  simpl. rewrite !js_or_data. unfold passesFilter, substring.
  rewrite andb_true_iff, !orb_true_iff, !includes_spec, falsy_true,
    negb_true_iff, bool_decide_eq_true.
  tauto.
Qed.

Lemma filterRow_display (query : string) (liveOnly : bool) (row : Row) :
  (displayed (filterRow query liveOnly row) ↔ passesFilter query liveOnly row)
  ∧ (¬ passesFilter query liveOnly row → hidden (filterRow query liveOnly row)).
Proof.
  pose proof (filterRow_test query liveOnly row) as Ht. simpl in Ht.
  unfold filterRow, displayed, hidden.
  destruct (_ && _) eqn:E; simpl.
  - split; [|intros Hn; destruct Hn]; tauto.
  - split; [split; [done|]|done].
    intros Hp. apply Ht in Hp. congruence.
Qed.

Lemma filterRows_lookup (p : Page) (i : nat) :
  rows (filterRows p) !! i
  = filterRow (filterQuery p) (filterLiveOnly p) <$> rows p !! i.
Proof. unfold filterRows. simpl. apply list_lookup_fmap. Qed.

End FilterFacts.

(** C1: after [filterRows], a row is displayed exactly when the trimmed,
    lowercased query is empty or occurs in its lowercased title, authors
    or tags, and the live-only box is unchecked or its lowercased
    [data-live] is [true]; otherwise it is hidden.  A missing search box
    counts as an empty query, a missing live-only box as unchecked. *)
Theorem filterRows_displays_matching `{Platform} (p : Page) (i : nat) (row : Row) :
  rows p !! i = Some row →
  let query :=
    match searchInput p with
    | Some value => toLowerCase (trim value)
    | None => ""
    end in
  let liveOnly :=
    match liveOnlyCheckbox p with
    | Some checked => checked
    | None => false
    end in
  ∃ row', rows (filterRows p) !! i = Some row'
    ∧ (displayed row' ↔ passesFilter query liveOnly row)
    ∧ (¬ passesFilter query liveOnly row → hidden row').
Proof.
  intros Hi query liveOnly.
  exists (filterRow query liveOnly row). split.
  - rewrite filterRows_lookup, Hi. done.
  - apply filterRow_display.
Qed.

Lemma filterRows_displays_matching_witness :
  ∃ row',
    rows (@filterRows Sample.platform
            (Sample.page [Sample.hobbit; Sample.emma] " Hob " true)) !! 0
      = Some row'
    ∧ (displayed row' ↔ @passesFilter Sample.platform "hob" true Sample.hobbit)
    ∧ (¬ @passesFilter Sample.platform "hob" true Sample.hobbit → hidden row').
Proof.
  exact (@filterRows_displays_matching Sample.platform
           (Sample.page [Sample.hobbit; Sample.emma] " Hob " true)
           0 Sample.hobbit eq_refl).
Defined.

(** C7: [filterRows] changes the display style of rows and nothing
    else: the rows are the same ones in the same order, each with its
    cells, dataset, classes and saved values, no request or other call
    is logged, and the rest of the page is as it was. *)
Theorem filterRows_frame `{Platform} (p : Page) :
  Forall2 sameButDisplay (rows p) (rows (filterRows p))
  ∧ log (filterRows p) = log p
  ∧ set_rows (λ _, rows p) (filterRows p) = p.
Proof.
  split; [|split].
  - unfold filterRows. simpl. apply Forall2_fmap_r, Forall_Forall2_diag.
    apply Forall_forall. intros r _. apply filterRow_frame.
  - done.
  - by destruct p.
Qed.

(** ** Statements and what they keep *)

Section Preservation.
Context {A B : Type} (Q : Page → Prop).

Lemma preserves_ret (a : A) : preserves Q (mret a).
Proof. by intros p. Qed.

Lemma preserves_throw : preserves Q (@throw A).
Proof. by intros p. Qed.

Lemma preserves_get : preserves Q get.
Proof. by intros p. Qed.

Lemma preserves_getRow (row : nat) : preserves Q (getRow row).
Proof. intros p Hp. unfold getRow. by case_match. Qed.

Lemma preserves_modify (f : Page → Page) :
  (∀ p, Q p → Q (f p)) → preserves Q (modify f).
Proof. intros Hf p Hp. by apply Hf. Qed.

Lemma preserves_bind (m : M A) (f : A → M B) :
  preserves Q m → (∀ a, preserves Q (f a)) → preserves Q (m ≫= f).
Proof.
  intros Hm Hf p Hp. unfold mbind, M_bind.
  specialize (Hm p Hp). destruct (m p) as [[a|] p']; simpl in *; [|done].
  by apply Hf.
Qed.

Lemma preserves_run (m : M ()) (p : Page) :
  preserves Q m → Q p → Q (run m p).
Proof. intros Hm Hp. by apply Hm. Qed.
End Preservation.

(** Break a statement into its steps. *)
Ltac steps :=
  repeat match goal with
    | |- preserves _ (_ ≫= _) => apply preserves_bind; [|intros ?]
    | |- preserves _ (mret _) => apply preserves_ret
    | |- preserves _ throw => apply preserves_throw
    | |- preserves _ get => apply preserves_get
    | |- preserves _ (getRow _) => apply preserves_getRow
    | |- preserves _ (match _ with _ => _ end) => case_match
    end.

(** ** Requests *)

Section FetchFacts.
Context `{Platform} (before : list Effect).

#[local] Abbreviation Q := (fetchesKnown before).

Lemma fetchesKnown_log (p q : Page) : log q = log p → Q p → Q q.
Proof. unfold fetchesKnown. by intros ->. Qed.

Lemma fetchesKnown_emit (e : Effect) (p : Page) :
  (∀ r, e = Fetch r → postToKnownEndpoint r) → Q p → Q (emit e p).
Proof.
  intros He Hp r. simpl. rewrite elem_of_app, list_elem_of_singleton.
  intros [?|E]; [by apply Hp|]. right. by apply He.
Qed.

Lemma fetchesKnown_showError (msg : string) (p : Page) :
  Q p → Q (showError msg p).
Proof.
  intros Hp. unfold showError. case_match.
  - apply fetchesKnown_emit; [done|]. by eapply fetchesKnown_log.
  - by apply fetchesKnown_emit.
Qed.

Lemma fetchesKnown_stopScanner (p : Page) : Q p → Q (stopScanner p).
Proof.
  intros Hp. unfold stopScanner. case_match.
  - by apply fetchesKnown_emit.
  - by eapply fetchesKnown_log.
Qed.

Lemma fetchesKnown_readByIsbn (isbn : string) (p : Page) :
  Q p → Q (emit (readByIsbn isbn) p).
Proof.
  apply fetchesKnown_emit. intros r [= <-]. split; [done|]. by left.
Qed.

Lemma fetchesKnown_modify (f : Page → Page) :
  (∀ p, log (f p) = log p) → preserves Q (modify f).
Proof. intros Hf. apply preserves_modify. intros p. by apply fetchesKnown_log. Qed.

Lemma fetchesKnown_setCell (row k : nat) (html : string) :
  preserves Q (setCell row k html).
Proof. unfold setCell, modifyRow. steps. by apply fetchesKnown_modify. Qed.

Lemma fetchesKnown_appendChild (row k : nat) (html : string) :
  preserves Q (appendChild row k html).
Proof. unfold appendChild, modifyRow. steps. by apply fetchesKnown_modify. Qed.

Lemma fetchesKnown_restoreCells (row idx : nat) (vals : list string) :
  preserves Q (restoreCells row idx vals).
Proof.
  revert idx. induction vals as [|v vals IH]; intros idx; simpl.
  - apply preserves_ret.
  - apply preserves_bind; [apply fetchesKnown_setCell | intros _; apply IH].
Qed.

Lemma fetchesKnown_cancelEditing (row : nat) :
  preserves Q (cancelEditing row).
Proof.
  unfold cancelEditing, modifyRow. steps;
    first [apply fetchesKnown_restoreCells | by apply fetchesKnown_modify].
Qed.

Lemma fetchesKnown_orTextContent (v : JsValue) (c : option Cell) :
  preserves Q (orTextContent v c).
Proof. unfold orTextContent. steps. Qed.

Lemma fetchesKnown_enableEditing (row : nat) :
  preserves Q (enableEditing row).
Proof.
  unfold enableEditing, modifyRow. steps;
    first [ apply fetchesKnown_cancelEditing
          | apply fetchesKnown_orTextContent
          | apply fetchesKnown_setCell
          | apply fetchesKnown_appendChild
          | by apply fetchesKnown_modify ].
Qed.

Lemma fetchesKnown_emit_modify (e : Effect) :
  (∀ r, e = Fetch r → postToKnownEndpoint r) → preserves Q (modify (emit e)).
Proof. intros He. apply preserves_modify. intros p. by apply fetchesKnown_emit. Qed.

(** One event adds no request but a POST to a known endpoint. *)
Lemma fetchesKnown_handle (ev : Event) (p : Page) : Q p → Q (handle ev p).
Proof.
  intros Hp. destruct ev; simpl.
  - unfold startScanner. repeat case_match;
      first [by apply fetchesKnown_showError
            | apply fetchesKnown_emit; [done|]; by eapply fetchesKnown_log].
  - by apply fetchesKnown_stopScanner.
  - unfold startRejected. apply fetchesKnown_showError.
    eapply fetchesKnown_log; [|by apply (fetchesKnown_emit (ConsoleError "Error starting scanner"))].
    done.
  - destruct onDecoded.
    + unfold onDecodedDefault. case_match.
      * by apply fetchesKnown_readByIsbn, fetchesKnown_stopScanner.
      * apply fetchesKnown_showError, fetchesKnown_stopScanner.
        by eapply fetchesKnown_log.
    + by apply fetchesKnown_readByIsbn, fetchesKnown_stopScanner.
  - unfold stopSettled. case_match.
    + eapply fetchesKnown_log; [|by apply (fetchesKnown_emit ScannerClear)]. done.
    + by apply fetchesKnown_emit.
  - unfold hideError. case_match; [by eapply fetchesKnown_log|done].
  - unfold toggleGiftFromVisibility. simpl.
    repeat case_match; by eapply fetchesKnown_log.
  - case_match; [by eapply fetchesKnown_log|done].
  - case_match; [by eapply fetchesKnown_log|done].
  - apply preserves_run; [|done]. unfold liveToggleChange. steps.
    apply fetchesKnown_emit_modify. intros r [= <-]. split; [done|].
    right. left. eauto.
  - unfold liveToggleSettled, liveToggleThen. case_match; [|done].
    by eapply fetchesKnown_log.
  - apply preserves_run; [|done]. unfold markReadClick. steps.
    apply fetchesKnown_emit_modify. intros r [= <-]. split; [done|].
    right. right. eauto.
  - unfold markReadSettled. case_match; [|done]. by apply fetchesKnown_emit.
  - unfold startScanner. repeat case_match;
      first [by apply fetchesKnown_showError
            | apply fetchesKnown_emit; [done|]; by eapply fetchesKnown_log].
  - unfold readByIsbnSettled. repeat case_match;
      first [ by apply fetchesKnown_emit
            | by apply fetchesKnown_showError
            | by apply fetchesKnown_showError, fetchesKnown_emit ].
  - apply preserves_run; [apply fetchesKnown_enableEditing|done].
  - apply preserves_run; [|done]. unfold saveClick. steps.
    apply fetchesKnown_emit_modify. intros r [= <-]. split; [done|].
    right. left. eauto.
  - unfold saveSettled. repeat case_match;
      first [by apply fetchesKnown_emit | by apply fetchesKnown_showError].
  - apply preserves_run; [apply fetchesKnown_cancelEditing|done].
Qed.

Lemma fetchesKnown_handleAll (evs : list Event) (p : Page) :
  Q p → Q (handleAll evs p).
Proof.
  revert p. induction evs as [|ev evs IH]; intros p Hp; [done|].
  apply IH. by apply fetchesKnown_handle.
Qed.
End FetchFacts.

(** C5: whatever events follow the loading of the page, every request
    the script logs is a POST to [/update/:id], [/read/:id] or
    [/read_by_isbn]: a request in the log that was not there before is
    one of these. *)
Theorem fetches_post_to_three_endpoints `{Platform}
    (evs : list Event) (p : Page) (r : Request) :
  Fetch r ∈ log (handleAll evs (onLoad p)) →
  Fetch r ∈ log p ∨ postToKnownEndpoint r.
Proof.
  revert r. change (fetchesKnown (log p) (handleAll evs (onLoad p))).
  apply fetchesKnown_handleAll. unfold onLoad.
  eapply fetchesKnown_log with (p := p); [|by intros r; left].
  unfold filterRows, toggleGiftFromVisibility. simpl. by repeat case_match.
Qed.

Lemma fetches_post_to_three_endpoints_witness :
  let r := {| url := "/update/1"; method := "POST";
              headers := [("Content-Type", "application/x-www-form-urlencoded")];
              body := Some "is_live=false" |} in
  Fetch r ∈ log (Sample.page [Sample.hobbit] "" false) ∨ postToKnownEndpoint r.
Proof.
  intros r.
  apply (@fetches_post_to_three_endpoints Sample.platform
           [LiveToggleChange 0 false] (Sample.page [Sample.hobbit] "" false) r).
  apply list_elem_of_In. vm_compute. left. reflexivity.
Defined.

(** ** Scanning *)

Section ScanFacts.
Context `{Platform}.

Lemma normalizeIsbn_string (t : string) :
  normalizeIsbn (JsString t) = Str.replace_g Str.nonDigit "" t.
Proof.
  unfold normalizeIsbn, js_not, js_String.
  destruct (Str.falsy t) eqn:Hf; [|done].
  by apply falsy_true in Hf as ->.
Qed.




End ScanFacts.



(** ** The live toggle *)

(** C6: a change of a row's live toggle POSTs [is_live=<newState>] to
    [/update/:id]; when that request resolves, the row's [data-live] is
    [true] if the box is now checked and [false] if not, and every row
    of the table is displayed or hidden as the filter demands of the
    updated data, so that a row unchecked under the live-only filter is
    hidden. *)
Theorem liveToggle_updates_and_refilters `{Platform}
    (p q : Page) (row : nat) (r r' : Row) (newState ok : bool)
    (text : option string) :
  rows p !! row = Some r →
  rows q !! row = Some r' →
  let q' := handle (LiveToggleSettled row newState (Fulfilled ok text)) q in
  log (handle (LiveToggleChange row newState) p)
    = log p ++
        [Fetch {| url := "/update/" +:+ js_String (dataset_get r "id");
                  method := "POST";
                  headers := [("Content-Type", "application/x-www-form-urlencoded")];
                  body := Some ("is_live=" +:+ (if newState then "true" else "false")) |}]
  ∧ ∃ r2, rows q' !! row = Some r2
      ∧ dataset r2 !! "live" = Some (if newState then "true" else "false")
      ∧ (∀ i ri, rows q' !! i = Some ri →
           (displayed ri ↔ passesFilter (filterQuery q) (filterLiveOnly q) ri)
           ∧ (¬ passesFilter (filterQuery q) (filterLiveOnly q) ri → hidden ri))
      ∧ (newState = false → liveOnlyCheckbox q = Some true →
         toLowerCase "false" ≠ "true" → hidden r2).
Proof.
  intros Hr Hr' q'. split.
  { simpl. unfold run, liveToggleChange, getRow, mbind, M_bind. by rewrite Hr. }
  set (upd := set_dataset <["live" := js_bool newState]>).
  assert (Hq' : ∀ i, rows q' !! i
                     = filterRow (filterQuery q) (filterLiveOnly q)
                         <$> (alter upd row (rows q) !! i)).
  { intros i. unfold q', handle, liveToggleSettled, liveToggleThen.
    by rewrite filterRows_lookup. }
  exists (filterRow (filterQuery q) (filterLiveOnly q) (upd r')).
  assert (Hrow : rows q' !! row
                 = Some (filterRow (filterQuery q) (filterLiveOnly q) (upd r'))).
  { rewrite Hq', list_lookup_alter, Hr', decide_True by done. done. }
  split; [done|]. split; [|split].
  - destruct (filterRow_frame (filterQuery q) (filterLiveOnly q) (upd r')) as [-> _].
    simpl. by rewrite lookup_insert_eq.
  - intros i ri. rewrite Hq'. intros (r0 & _ & ->)%fmap_Some.
    destruct (filterRow_frame (filterQuery q) (filterLiveOnly q) r0) as [Hd _].
    rewrite !(passesFilter_frame _ _ _ _ Hd).
    apply filterRow_display.
  - intros -> Hlive Hlow.
    apply filterRow_display. intros [_ [Hl|Hl]].
    + unfold filterLiveOnly in Hl. by rewrite Hlive in Hl.
    + unfold data, upd in Hl. simpl in Hl. by rewrite lookup_insert_eq in Hl.
Qed.

Lemma liveToggle_updates_and_refilters_witness :
  let p := Sample.page [Sample.hobbit; Sample.emma] "" true in
  let q' := @handle Sample.platform
              (LiveToggleSettled 0 false (Fulfilled true None)) p in
  log (@handle Sample.platform (LiveToggleChange 0 false) p)
    = log p ++
        [Fetch {| url := "/update/" +:+ js_String (dataset_get Sample.hobbit "id");
                  method := "POST";
                  headers := [("Content-Type", "application/x-www-form-urlencoded")];
                  body := Some "is_live=false" |}]
  ∧ ∃ r2, rows q' !! 0 = Some r2
      ∧ dataset r2 !! "live" = Some "false"
      ∧ (∀ i ri, rows q' !! i = Some ri →
           (displayed ri
            ↔ @passesFilter Sample.platform (@filterQuery Sample.platform p)
                (filterLiveOnly p) ri)
           ∧ (¬ @passesFilter Sample.platform (@filterQuery Sample.platform p)
                  (filterLiveOnly p) ri → hidden ri))
      ∧ (false = false → liveOnlyCheckbox p = Some true →
         @toLowerCase Sample.platform "false" ≠ "true" → hidden r2).
Proof.
  exact (@liveToggle_updates_and_refilters Sample.platform
           (Sample.page [Sample.hobbit; Sample.emma] "" true)
           (Sample.page [Sample.hobbit; Sample.emma] "" true)
           0 Sample.hobbit Sample.hobbit false true None eq_refl eq_refl).
Defined.

Example liveToggle_hides_unchecked_row :
  let p := Sample.page [Sample.hobbit; Sample.emma] "" true in
  style_display <$> rows (@onLoad Sample.platform p) = [""; "none"]
  ∧ style_display
      <$> rows (@handleAll Sample.platform
                  [LiveToggleChange 0 false;
                   LiveToggleSettled 0 false (Fulfilled true None)]
                  (@onLoad Sample.platform p))
    = ["none"; "none"].
Proof. split; reflexivity. Qed.

(** ** Failed requests *)

(** X24: when a [/read_by_isbn], Save or [/read/:id] request fails,
    the table, the forms and the scanner stay as they are: the script
    only writes to the error box and logs a message, a timer or a
    reload. *)
Lemma failure_only_notice `{Platform} (o : Outcome) (ev : Event) (p : Page) :
  o = Rejected ∨ (∃ text, o = Fulfilled false text) →
  ev = ReadByIsbnSettled o ∨ ev = SaveSettled o ∨ ev = MarkReadSettled o →
  let p' := handle ev p in
  rows p' = rows p ∧ editingRow p' = editingRow p
  ∧ searchInput p' = searchInput p ∧ liveOnlyCheckbox p' = liveOnlyCheckbox p
  ∧ isbnInput p' = isbnInput p ∧ giftForm p' = giftForm p
  ∧ scannerContainer_display p' = scannerContainer_display p
  ∧ html5QrCode p' = html5QrCode p
  ∧ ∃ new, log p' = log p ++ new ∧ Forall isNotice new.
Proof.
  intros Ho Hev.
  destruct Ho as [->|[text ->]], Hev as [->|[->| ->]]; simpl;
    unfold readByIsbnSettled, saveSettled, markReadSettled, showError;
    repeat case_match; simpl; repeat (split; [done|]);
    first [ by exists []; rewrite app_nil_r
          | rewrite <- ?app_assoc; eexists; split; [done|];
            by repeat constructor ].
Qed.

(** The [then] callback of the live toggle runs the same whatever the
    status of the response: the row's [data-live] is rewritten. *)
Lemma liveToggle_ignores_status `{Platform} (p : Page) (row : nat) (r : Row)
    (newState ok : bool) (text : option string) :
  rows p !! row = Some r →
  let p' := handle (LiveToggleSettled row newState (Fulfilled ok text)) p in
  p' = liveToggleThen row newState p
  ∧ ∃ r', rows p' !! row = Some r' ∧ data r' "live" = js_bool newState.
Proof.
  intros Hr p'. split; [done|].
  unfold p', handle, liveToggleSettled, liveToggleThen.
  rewrite filterRows_lookup. simpl.
  rewrite list_lookup_alter, decide_True, Hr by done. simpl.
  eexists. split; [done|].
  unfold data, filterRow. case_match; simpl; by rewrite lookup_insert_eq.
Qed.

(** C4: the failing case.  The server answers the live toggle's POST
    with an error status; the [then] callback still rewrites the row's
    [data-live] and filters again, so the row changes from displayed to
    hidden, and no message is shown: the log and the error box are as
    they were. *)
Theorem liveToggle_failure_rewrites_row :
  let p := @onLoad Sample.platform (Sample.page [Sample.hobbit] "" true) in
  let p1 := @handle Sample.platform (LiveToggleChange 0 false) p in
  let p2 := @handle Sample.platform
              (LiveToggleSettled 0 false
                 (Fulfilled false (Some "Internal Server Error"))) p1 in
  (λ r, (data r "live", style_display r)) <$> rows p1 = [("true", "")]
  ∧ (λ r, (data r "live", style_display r)) <$> rows p2 = [("false", "none")]
  ∧ log p2 = log p1
  ∧ errorMessageDiv p2 = errorMessageDiv p1.
Proof. repeat split. Qed.

(** ** Statements: pre- and postconditions *)

Section Hoare.
Context {A B : Type}.
Implicit Types (P : Page → Prop) (Qt : Page → Prop).

Lemma bind_eq (m : M A) (f : A → M B) (p : Page) :
  (m ≫= f) p
  = match m p with
    | (Normal a, p') => f a p'
    | (Throw, p') => (Throw, p')
    end.
Proof. done. Qed.

Lemma hoare_ret P (a : A) (Qn : A → Page → Prop) Qt :
  (∀ p, P p → Qn a p) → hoare P (mret a) Qn Qt.
Proof. intros HQ p Hp. by apply HQ. Qed.

Lemma hoare_throw P (Qn : A → Page → Prop) Qt :
  (∀ p, P p → Qt p) → hoare P throw Qn Qt.
Proof. intros HQ p Hp. by apply HQ. Qed.

Lemma hoare_bind P (m : M A) (f : A → M B) (R : A → Page → Prop)
    (Qn : B → Page → Prop) Qt :
  hoare P m R Qt → (∀ a, hoare (R a) (f a) Qn Qt) →
  hoare P (m ≫= f) Qn Qt.
Proof.
  intros Hm Hf p Hp. rewrite bind_eq. specialize (Hm p Hp).
  destruct (m p) as [[a|] p']; [|done]. by apply Hf.
Qed.

Lemma hoare_conseq P P' (m : M A) (Qn Qn' : A → Page → Prop) Qt Qt' :
  hoare P' m Qn' Qt' →
  (∀ p, P p → P' p) → (∀ a p, Qn' a p → Qn a p) → (∀ p, Qt' p → Qt p) →
  hoare P m Qn Qt.
Proof.
  intros Hm HP HQn HQt p Hp. specialize (Hm p (HP p Hp)).
  destruct (m p) as [[a|] p']; auto.
Qed.

Lemma preserves_hoare P (m : M A) :
  preserves P m → hoare P m (λ _, P) P.
Proof.
  intros Hm p Hp. specialize (Hm p Hp).
  by destruct (m p) as [[a|] p'].
Qed.
End Hoare.

Lemma hoare_get (P : Page → Prop) (Qn : Page → Page → Prop) (Qt : Page → Prop) :
  (∀ p, P p → Qn p p) → hoare P get Qn Qt.
Proof. intros HQ p Hp. by apply HQ. Qed.

Lemma hoare_modify (P : Page → Prop) (f : Page → Page)
    (Qn : () → Page → Prop) (Qt : Page → Prop) :
  (∀ p, P p → Qn () (f p)) → hoare P (modify f) Qn Qt.
Proof. intros HQ p Hp. by apply HQ. Qed.

Lemma hoare_getRow (P : Page → Prop) (row : nat)
    (Qn : Row → Page → Prop) (Qt : Page → Prop) :
  (∀ p r, P p → rows p !! row = Some r → Qn r p) →
  (∀ p, P p → rows p !! row = None → Qt p) →
  hoare P (getRow row) Qn Qt.
Proof.
  intros Hn Ht p Hp. unfold getRow.
  destruct (rows p !! row) eqn:E; [by apply Hn | by apply Ht].
Qed.

(** ** Parts of the page a statement leaves alone *)

Section Keeps.
Context {V : Type} (view : Page → V).

Lemma keeps_preserves {A} (m : M A) (Q : V → Prop) :
  keeps view m → preserves (λ p, Q (view p)) m.
Proof. intros Hm p Hp. by rewrite Hm. Qed.

Lemma keeps_ret {A} (a : A) : keeps view (mret a).
Proof. done. Qed.

Lemma keeps_throw {A} : keeps view (@throw A).
Proof. done. Qed.

Lemma keeps_get : keeps view get.
Proof. done. Qed.

Lemma keeps_getRow (row : nat) : keeps view (getRow row).
Proof. intros p. unfold getRow. by case_match. Qed.

Lemma keeps_modify (f : Page → Page) :
  (∀ p, view (f p) = view p) → keeps view (modify f).
Proof. done. Qed.

Lemma keeps_bind {A B} (m : M A) (f : A → M B) :
  keeps view m → (∀ a, keeps view (f a)) → keeps view (m ≫= f).
Proof.
  intros Hm Hf p. rewrite bind_eq. specialize (Hm p).
  destruct (m p) as [[a|] p']; simpl in *; [|done].
  by rewrite Hf.
Qed.
End Keeps.

Ltac keep_steps :=
  repeat match goal with
    | |- keeps _ (_ ≫= _) => apply keeps_bind; [|intros ?]
    | |- keeps _ (mret _) => apply keeps_ret
    | |- keeps _ throw => apply keeps_throw
    | |- keeps _ get => apply keeps_get
    | |- keeps _ (getRow _) => apply keeps_getRow
    | |- keeps _ (match _ with _ => _ end) => case_match
    end.

(** ** Editing *)

Section ClassListFacts.

Lemma contains_true (t : string) (l : list string) :
  ClassList.contains t l = true ↔ t ∈ l.
Proof. unfold ClassList.contains. by rewrite bool_decide_eq_true. Qed.

Lemma contains_false (t : string) (l : list string) :
  ClassList.contains t l = false ↔ t ∉ l.
Proof. unfold ClassList.contains. by rewrite bool_decide_eq_false. Qed.

Lemma elem_of_add (t : string) (l : list string) : t ∈ ClassList.add t l.
Proof.
  unfold ClassList.add. destruct (ClassList.contains t l) eqn:E.
  - by apply contains_true.
  - apply elem_of_app. right. by apply list_elem_of_singleton.
Qed.

Lemma not_elem_of_remove (t : string) (l : list string) :
  t ∉ ClassList.remove t l.
Proof. unfold ClassList.remove. by intros [? ?]%list_elem_of_filter. Qed.

End ClassListFacts.

Section EditingFacts.
Context `{Platform}.

Lemma fmap_alter_same {A B} (g : A → B) (f : A → A) (i : nat) (l : list A) :
  (∀ x, g (f x) = g x) → g <$> alter f i l = g <$> l.
Proof.
  intros Hf. apply list_eq. intros j.
  rewrite !list_lookup_fmap, list_lookup_alter.
  case_decide; [subst j|done]. destruct (l !! i); simpl; by rewrite ?Hf.
Qed.

(** *** What the cell statements leave alone *)

Lemma classView_alter (f : Row → Row) (row : nat) (p : Page) :
  (∀ r, classList (f r) = classList r) →
  classView (set_rows (alter f row) p) = classView p.
Proof.
  intros Hf. unfold classView. simpl. f_equal. by apply fmap_alter_same.
Qed.

Lemma keeps_classView_setCell (row k : nat) (html : string) :
  keeps classView (setCell row k html).
Proof.
  unfold setCell, modifyRow. keep_steps.
  apply keeps_modify. intros p. by apply classView_alter.
Qed.

Lemma keeps_classView_appendChild (row k : nat) (html : string) :
  keeps classView (appendChild row k html).
Proof.
  unfold appendChild, modifyRow. keep_steps.
  apply keeps_modify. intros p. by apply classView_alter.
Qed.

Lemma keeps_classView_restoreCells (row idx : nat) (vals : list string) :
  keeps classView (restoreCells row idx vals).
Proof.
  revert idx. induction vals as [|v vals IH]; intros idx; simpl.
  - apply keeps_ret.
  - apply keeps_bind; [apply keeps_classView_setCell | intros _; apply IH].
Qed.

Lemma keeps_orTextContent {V} (view : Page → V) (v : JsValue) (c : option Cell) :
  keeps view (orTextContent v c).
Proof. unfold orTextContent. keep_steps. Qed.

(** *** The invariant is about classes and [editingRow] only *)

Lemma classView_lookup (p p' : Page) (i : nat) (r' : Row) :
  classView p' = classView p → rows p' !! i = Some r' →
  ∃ r, rows p !! i = Some r ∧ classList r = classList r'.
Proof.
  intros [= _ Hc] Hi.
  assert (Hl : (classList <$> rows p) !! i = Some (classList r')).
  { by rewrite <- Hc, list_lookup_fmap, Hi. }
  rewrite list_lookup_fmap in Hl.
  destruct (rows p !! i) as [r|]; [|done]. injection Hl as Hl. eauto.
Qed.

Lemma editingInvariant_view (p p' : Page) :
  classView p' = classView p → editingInvariant p → editingInvariant p'.
Proof.
  intros Hv [H1 H2]. pose proof Hv as [= He _]. split.
  - intros i r' Hi Hr'.
    destruct (classView_lookup p p' i r' Hv Hi) as (r & Hr & Hc).
    rewrite He. apply (H1 i r Hr). unfold isEditing in *. by rewrite Hc.
  - intros i Hi. rewrite He in Hi. destruct (H2 i Hi) as (r & Hr & Hed).
    symmetry in Hv.
    destruct (classView_lookup p' p i r Hv Hr) as (r' & Hr' & Hc).
    exists r'. split; [done|]. unfold isEditing in *. by rewrite Hc.
Qed.

Lemma hoare_keeps_classView {A} (m : M A) (E : option nat) :
  keeps classView m →
  hoare (λ p, editingInvariant p ∧ editingRow p = E) m
    (λ _ p, editingInvariant p ∧ editingRow p = E)
    (λ p, editingInvariant p ∧ editingRow p = E).
Proof.
  intros Hm. apply preserves_hoare. intros p [Hinv He].
  specialize (Hm p). split.
  - by apply (editingInvariant_view p).
  - injection Hm as Hm _. by rewrite Hm.
Qed.

(** *** Leaving and entering editing mode *)

Lemma editingInvariant_left (p : Page) (row : nat) (r : Row) :
  editingInvariant p → rows p !! row = Some r → isEditing r →
  editingInvariant
    (set_editingRow None
       (set_rows (alter (set_classList (ClassList.remove "editing")) row) p)).
Proof.
  intros [H1 H2] Hr Hed. split; simpl; [|done].
  intros i ri Hi Hri. rewrite list_lookup_alter in Hi.
  case_decide as Hrow.
  - subst i. rewrite Hr in Hi. injection Hi as <-.
    by apply not_elem_of_remove in Hri.
  - pose proof (H1 i ri Hi Hri) as Ei. pose proof (H1 row r Hr Hed) as Er.
    congruence.
Qed.

Lemma editingInvariant_entered (p : Page) (row : nat) (r : Row) :
  editingInvariant p → editingRow p = None → rows p !! row = Some r →
  editingInvariant
    (set_rows (alter (set_classList (ClassList.add "editing")) row)
       (set_editingRow (Some row) p)).
Proof.
  intros [H1 H2] He Hr. split; simpl.
  - intros i ri Hi Hri. rewrite list_lookup_alter in Hi.
    case_decide as Hrow; [by subst|].
    pose proof (H1 i ri Hi Hri). congruence.
  - intros i [= <-]. eexists. split.
    + by rewrite list_lookup_alter, decide_True, Hr.
    + apply elem_of_add.
Qed.

Lemma cancelEditing_invariant (row : nat) (E : option nat) :
  hoare (λ p, editingInvariant p ∧ editingRow p = E)
    (cancelEditing row)
    (λ _ p, editingInvariant p
            ∧ (editingRow p = None ∨ (editingRow p = E ∧ E ≠ Some row)))
    editingInvariant.
Proof.
  unfold cancelEditing.
  apply hoare_bind
    with (R := λ r p, (editingInvariant p ∧ editingRow p = E)
                      ∧ rows p !! row = Some r).
  { apply hoare_getRow; [done|]. by intros p [? ?]. }
  intros r. destruct (ClassList.contains "editing" (classList r)) eqn:Hc; simpl.
  - apply contains_true in Hc.
    apply hoare_bind
      with (R := λ _ p, (editingInvariant p ∧ editingRow p = Some row)).
    { eapply hoare_conseq;
        [apply (hoare_keeps_classView _ (Some row)),
           keeps_classView_restoreCells | | done | by intros p [? ?] ].
      intros p [[[H1 H2] He] Hr]. split; [done|]. by apply (H1 row r). }
    intros _.
    apply hoare_bind
      with (R := λ _ p, ∃ p0, (editingInvariant p0 ∧ editingRow p0 = Some row)
                          ∧ p = set_rows (alter (set_classList (ClassList.remove "editing")) row) p0).
    { apply hoare_modify. eauto. }
    intros _. apply hoare_modify. intros p (p0 & [Hinv He] & ->).
    split; [|by left].
    destruct Hinv as [H1 H2]. destruct (H2 row He) as (r0 & Hr0 & Hed0).
    by apply (editingInvariant_left p0 row r0).
  - apply contains_false in Hc. apply hoare_ret.
    intros p [[[H1 H2] He] Hr]. split; [done|]. right. split; [done|].
    intros ->. destruct (H2 row He) as (r0 & Hr0 & Hed0).
    rewrite Hr in Hr0. injection Hr0 as <-. done.
Qed.

Lemma enableEditing_invariant (row : nat) :
  hoare editingInvariant (enableEditing row)
    (λ _ p, editingInvariant p ∧ editingRow p = Some row)
    editingInvariant.
Proof.
  unfold enableEditing.
  apply hoare_bind with (R := λ p0 p, p = p0 ∧ editingInvariant p).
  { by apply hoare_get. }
  intros p0.
  apply hoare_bind
    with (R := λ _ p, editingInvariant p
                      ∧ (editingRow p = None ∨ editingRow p = Some row)).
  { destruct (editingRow p0) as [e|] eqn:He.
    - case_bool_decide as Hne.
      + eapply hoare_conseq; [apply (cancelEditing_invariant e (Some e))|..].
        * intros p [-> ?]. done.
        * intros _ p [? [?|[_ ?]]]; by auto.
        * done.
      + apply hoare_ret. intros p [-> ?]. split; [done|]. right.
        rewrite He. f_equal. by destruct (decide (e = row)).
    - apply hoare_ret. intros p [-> ?]. auto. }
  intros _.
  apply hoare_bind
    with (R := λ r p, (editingInvariant p
                       ∧ (editingRow p = None ∨ editingRow p = Some row))
                      ∧ rows p !! row = Some r).
  { apply hoare_getRow; [done|]. by intros p [? ?]. }
  intros r. destruct (ClassList.contains "editing" (classList r)) eqn:Hc.
  { apply contains_true in Hc. apply hoare_ret.
    intros p [[[H1 H2] _] Hr]. split; [done|]. by apply (H1 row r). }
  apply contains_false in Hc.
  apply hoare_bind
    with (R := λ _ p, ∃ p0, (editingInvariant p0 ∧ editingRow p0 = None
                             ∧ rows p0 !! row = Some r)
                          ∧ p = set_editingRow (Some row) p0).
  { apply hoare_modify. intros p [[Hinv [He|He]] Hr]; [by eauto|].
    destruct Hinv as [H1 H2]. destruct (H2 row He) as (r0 & Hr0 & Hed0).
    rewrite Hr in Hr0. injection Hr0 as <-. done. }
  intros _.
  apply hoare_bind
    with (R := λ _ p, editingInvariant p ∧ editingRow p = Some row).
  { apply hoare_modify. intros p (p1 & (Hinv & He & Hr) & ->).
    split; [|done]. by apply (editingInvariant_entered p1 row r). }
  intros _.
  eapply hoare_conseq;
    [apply (hoare_keeps_classView _ (Some row)) | done | done | by intros p [? ?]].
  unfold modifyRow. keep_steps;
    first [ apply keeps_orTextContent
          | apply keeps_classView_setCell
          | apply keeps_classView_appendChild
          | apply keeps_modify; intros p; by apply classView_alter ].
Qed.

(** On a row that is being edited, [enableEditing] does nothing. *)
Lemma enableEditing_again (p : Page) (row : nat) (r : Row) :
  editingInvariant p → rows p !! row = Some r → isEditing r →
  enableEditing row p = (Normal (), p).
Proof.
  intros [H1 H2] Hr Hed. unfold enableEditing.
  rewrite bind_eq. simpl. rewrite (H1 row r Hr Hed).
  rewrite bool_decide_eq_false_2 by (by intros ?).
  rewrite bind_eq. simpl. rewrite bind_eq. unfold getRow at 1. rewrite Hr.
  apply contains_true in Hed. by rewrite Hed.
Qed.

End EditingFacts.

(** ** Cancel after edit *)

Section RoundTripFacts.
Context `{Platform}.

Lemma hoare_pure {A} (φ : Prop) (P : Page → Prop) (m : M A)
    (Qn : A → Page → Prop) (Qt : Page → Prop) :
  (φ → hoare P m Qn Qt) → hoare (λ p, φ ∧ P p) m Qn Qt.
Proof. intros Hm p [Hφ Hp]. by apply Hm. Qed.

(** *** Statements on one row leave the others alone *)





(** *** Writing a cell keeps the row's classes, saved values and size *)

Lemma shapeAt_alter_children (g : list Cell → list Cell) (e row : nat) (p : Page) :
  (∀ cs, length (g cs) = length cs) →
  shapeAt row (set_rows (alter (set_children g) e) p) = shapeAt row p.
Proof.
  intros Hg. unfold shapeAt. simpl. rewrite list_lookup_alter.
  case_decide; [subst e|done].
  destruct (rows p !! row); simpl; [|done]. by rewrite Hg.
Qed.

Lemma keeps_shapeAt_setCell (e row k : nat) (html : string) :
  keeps (shapeAt row) (setCell e k html).
Proof.
  unfold setCell, modifyRow. keep_steps.
  apply keeps_modify. intros p. apply shapeAt_alter_children.
  intros cs. apply length_insert.
Qed.

Lemma keeps_shapeAt_appendChild (e row k : nat) (html : string) :
  keeps (shapeAt row) (appendChild e k html).
Proof.
  unfold appendChild, modifyRow. keep_steps.
  apply keeps_modify. intros p. apply shapeAt_alter_children.
  intros cs. apply length_alter.
Qed.

(** *** [setCell] and [restoreCells] on a row with enough cells *)

Lemma setCell_writes (row idx : nat) (v : string) (done_ : list string)
    (C : list string) (n : nat) :
  idx < n →
  hoare
    (λ p, ∃ r1, rows p !! row = Some r1 ∧ length (children r1) = n
                ∧ take idx (cellsHTML r1) = done_ ∧ classList r1 = C)
    (setCell row idx v)
    (λ _ p, ∃ r1, rows p !! row = Some r1 ∧ length (children r1) = n
                  ∧ take (S idx) (cellsHTML r1) = done_ ++ [readBack v]
                  ∧ classList r1 = C)
    (λ _, False).
Proof.
  intros Hlt. unfold setCell.
  apply hoare_bind
    with (R := λ r1 p, (length (children r1) = n
                        ∧ take idx (cellsHTML r1) = done_ ∧ classList r1 = C)
                       ∧ rows p !! row = Some r1).
  { apply hoare_getRow.
    - intros p r1 (r0 & Hr0 & ?) Hr1. rewrite Hr0 in Hr1.
      by injection Hr1 as <-.
    - intros p (r0 & Hr0 & ?) Hr1. by rewrite Hr0 in Hr1. }
  intros r1. apply hoare_pure. intros (Hlen & Htake & Hcl).
  destruct (children r1 !! idx) as [c|] eqn:Hc.
  2: { apply lookup_ge_None in Hc. lia. }
  apply hoare_modify. intros p Hr1.
  exists (set_children <[idx := parsed v]> r1). simpl.
  rewrite list_lookup_alter, decide_True, Hr1 by done. split; [done|].
  rewrite length_insert. split; [done|]. split; [|done].
  unfold cellsHTML in *. simpl. rewrite list_fmap_insert. simpl.
  erewrite take_S_r.
  - rewrite take_insert_ge by done. by rewrite Htake.
  - apply list_lookup_insert_eq. rewrite length_fmap. lia.
Qed.

Lemma restoreCells_writes (row : nat) (vals : list string) :
  ∀ (idx : nat) (done_ : list string) (C : list string),
  hoare
    (λ p, ∃ r1, rows p !! row = Some r1
                ∧ length (children r1) = idx + length vals
                ∧ take idx (cellsHTML r1) = done_ ∧ classList r1 = C)
    (restoreCells row idx vals)
    (λ _ p, ∃ r2, rows p !! row = Some r2
                  ∧ cellsHTML r2 = done_ ++ (readBack <$> vals)
                  ∧ classList r2 = C)
    (λ _, False).
Proof.
  induction vals as [|v vals IH]; intros idx done_ C; simpl.
  - apply hoare_ret. intros p (r1 & Hr1 & Hlen & Htake & Hcl).
    exists r1. split; [done|]. split; [|done].
    rewrite app_nil_r, <- Htake. symmetry. apply take_ge.
    unfold cellsHTML. rewrite length_fmap. lia.
  - eapply hoare_bind.
    { apply (setCell_writes row idx v done_ C (idx + S (length vals))). lia. }
    intros []. eapply hoare_conseq;
      [apply (IH (S idx) (done_ ++ [readBack v]) C) | | | done].
    + intros p (r1 & Hr1 & Hlen & Htake & Hcl). exists r1.
      repeat split; try done. lia.
    + intros _ p (r2 & Hr2 & Hcells & Hcl). exists r2.
      by rewrite <- app_assoc in Hcells.
Qed.

(** *** The two calls *)


Lemma entered_saved (row : nat) (r : Row) (p : Page) :
  entered row r p → saved row (cellsHTML r) p.
Proof.
  intros (cl & Hs & Hcl). exists cl. split; [|done].
  unfold cellsHTML. by rewrite length_fmap.
Qed.


(** On a row in editing mode that has a saved value for each cell,
    [cancelEditing] completes: every cell has been assigned its saved
    value and the class is gone. *)
Lemma cancelEditing_reassigns (row : nat) (vals : list string) :
  hoare (saved row vals)
    (cancelEditing row)
    (λ _ p, reassigned row vals p)
    (λ _, False).
Proof.
  unfold cancelEditing.
  apply hoare_bind
    with (R := λ r1 p,
            (isEditing r1 ∧ _originalValues r1 = Some vals
             ∧ length (children r1) = length vals)
            ∧ rows p !! row = Some r1).
  { apply hoare_getRow.
    - intros p r1 (cl & Hs & Hcl) Hr1. split; [|done].
      unfold shapeAt in Hs. rewrite Hr1 in Hs. simpl in Hs.
      injection Hs as <- ? ?. done.
    - intros p (cl & Hs & Hcl) Hr1.
      unfold shapeAt in Hs. by rewrite Hr1 in Hs. }
  intros r1. apply hoare_pure. intros (Hed & Horig & Hlen).
  apply contains_true in Hed. rewrite Hed, Horig. simpl.
  apply hoare_bind
    with (R := λ _ p, ∃ r2, rows p !! row = Some r2
                            ∧ cellsHTML r2 = [] ++ (readBack <$> vals)
                            ∧ classList r2 = classList r1).
  { eapply hoare_conseq;
      [apply (restoreCells_writes row vals 0 [] (classList r1))
      | | done | done].
    intros p Hp. exists r1. done. }
  intros _.
  apply hoare_bind with (R := λ _ p, reassigned row vals p).
  { apply hoare_modify. intros p (r2 & Hr2 & Hcells & Hcl).
    exists (set_classList (ClassList.remove "editing") r2). simpl.
    rewrite list_lookup_alter, decide_True, Hr2 by done.
    split; [done|]. split; [done|]. apply not_elem_of_remove. }
  intros _. by apply hoare_modify.
Qed.

End RoundTripFacts.

(** ** Entering editing mode *)

Section EnterFacts.
Context `{Platform}.

Lemma keeps_pair {A V W} (v : Page → V) (w : Page → W) (m : M A) :
  keeps v m → keeps w m → keeps (λ p, (v p, w p)) m.
Proof. intros Hv Hw p. by rewrite Hv, Hw. Qed.

Lemma otherRows_alter (f : Row → Row) (row : nat) (p : Page) :
  otherRows row (set_rows (alter f row) p) = otherRows row p.
Proof.
  unfold otherRows. simpl. apply list_eq. intros j.
  destruct (decide (row = j)) as [<-|Hne].
  - destruct (decide (row < length (rows p))).
    + rewrite list_lookup_insert_eq by (by rewrite length_fmap, length_alter).
      by rewrite list_lookup_insert_eq by (by rewrite length_fmap).
    + rewrite !list_insert_ge; [|rewrite length_fmap, ?length_alter; lia..].
      rewrite !list_lookup_fmap, list_lookup_alter, decide_True by done.
      by rewrite (lookup_ge_None_2 (rows p) row) by lia.
  - rewrite !list_lookup_insert_ne by done.
    by rewrite !list_lookup_fmap, list_lookup_alter_ne.
Qed.

Lemma otherRows_lookup (row j : nat) (p q : Page) :
  otherRows row p = otherRows row q → j ≠ row → rows p !! j = rows q !! j.
Proof.
  intros E Hne. apply (f_equal (λ l, l !! j)) in E. unfold otherRows in E.
  rewrite !list_lookup_insert_ne, !list_lookup_fmap in E by done.
  destruct (rows p !! j), (rows q !! j); simpl in E; congruence.
Qed.

Lemma keeps_otherRows_setCell (row k : nat) (html : string) :
  keeps (otherRows row) (setCell row k html).
Proof.
  unfold setCell, modifyRow. keep_steps.
  apply keeps_modify. intros p. apply otherRows_alter.
Qed.

Lemma keeps_otherRows_appendChild (row k : nat) (html : string) :
  keeps (otherRows row) (appendChild row k html).
Proof.
  unfold appendChild, modifyRow. keep_steps.
  apply keeps_modify. intros p. apply otherRows_alter.
Qed.

Lemma editingNow_view (row : nat) (r : Row) (others : list (option Row))
    (p q : Page) :
  nowView row q = nowView row p →
  editingNow row r others p → editingNow row r others q.
Proof.
  intros [= Hs He _ Ho] ((cl & Hsh & Hcl) & Hed & Hoth).
  split; [|split; congruence]. exists cl. by rewrite Hs.
Qed.

Lemma keeps_nowView_setCell (row k : nat) (html : string) :
  keeps (nowView row) (setCell row k html).
Proof.
  apply keeps_pair; [apply keeps_shapeAt_setCell|].
  apply keeps_pair; [apply keeps_classView_setCell | apply keeps_otherRows_setCell].
Qed.

Lemma keeps_nowView_appendChild (row k : nat) (html : string) :
  keeps (nowView row) (appendChild row k html).
Proof.
  apply keeps_pair; [apply keeps_shapeAt_appendChild|].
  apply keeps_pair; [apply keeps_classView_appendChild | apply keeps_otherRows_appendChild].
Qed.

Lemma hoare_editingNow {A} (row : nat) (r : Row) (others : list (option Row))
    (φ : Prop) (m : M A) :
  keeps (nowView row) m →
  hoare (λ p, φ ∧ editingNow row r others p) m
    (λ _ p, φ ∧ editingNow row r others p)
    (editingNow row r others).
Proof.
  intros Hm p [Hφ Hp]. specialize (Hm p).
  destruct (m p) as [[a|] q]; simpl in *;
    [split; [done|]|]; by apply (editingNow_view row r others p).
Qed.

(** A cell that is written exists. *)
Lemma setCell_in_range (row k : nat) (html : string) (r : Row)
    (others : list (option Row)) (φ : Prop) :
  hoare (λ p, φ ∧ editingNow row r others p)
    (setCell row k html)
    (λ _ p, (k < length (children r) ∧ φ) ∧ editingNow row r others p)
    (editingNow row r others).
Proof.
  intros p [Hφ Hp].
  pose proof (keeps_nowView_setCell row k html p) as Hk.
  assert (Hlen : ∀ x, rows p !! row = Some x →
                      length (children x) = length (children r)).
  { intros x Hx. destruct Hp as ((cl & Hsh & _) & _). unfold shapeAt in Hsh.
    rewrite Hx in Hsh. simpl in Hsh. by injection Hsh as _ _ ->. }
  revert Hk. unfold setCell. rewrite bind_eq. unfold getRow.
  destruct (rows p !! row) as [x|] eqn:Hx; simpl.
  - destruct (children x !! k) as [c|] eqn:Hc; simpl; intros Hk.
    + split; [|by apply (editingNow_view row r others p)].
      split; [|done]. rewrite <- (Hlen x eq_refl).
      by apply lookup_lt_Some in Hc.
    + by apply (editingNow_view row r others p).
  - intros _. done.
Qed.

(** From a page where nothing is being edited: the row is marked and
    its markup saved before any cell is touched, and the call completes
    only if the row has the nine cells it writes to. *)
Lemma enableEditing_fresh (row : nat) (r : Row) (p0 : Page) :
  rows p0 !! row = Some r → ¬ isEditing r → editingRow p0 = None →
  hoare (λ p, p = p0)
    (enableEditing row)
    (λ _ p, 9 ≤ length (children r) ∧ editingNow row r (otherRows row p0) p)
    (editingNow row r (otherRows row p0)).
Proof.
  intros Hr Hned He0. unfold enableEditing.
  apply hoare_bind with (R := λ q p, q = p0 ∧ p = p0).
  { by apply hoare_get. }
  intros q. apply hoare_pure. intros ->. rewrite He0.
  apply hoare_bind with (R := λ _ p, p = p0).
  { by apply hoare_ret. }
  intros _.
  apply hoare_bind with (R := λ r' p, r' = r ∧ p = p0).
  { apply hoare_getRow.
    - intros p r' -> Hr'. split; [congruence|done].
    - intros p -> Hr'. congruence. }
  intros r'. apply hoare_pure. intros ->.
  apply contains_false in Hned. rewrite Hned.
  apply hoare_bind with (R := λ _ p, p = set_editingRow (Some row) p0).
  { apply hoare_modify. by intros p ->. }
  intros _.
  apply hoare_bind
    with (R := λ _ p, p = set_rows (alter (set_classList (ClassList.add "editing")) row)
                            (set_editingRow (Some row) p0)).
  { apply hoare_modify. by intros p ->. }
  intros _.
  apply hoare_bind
    with (R := λ _ p, True ∧ editingNow row r (otherRows row p0) p).
  { apply hoare_modify. intros p ->. split; [done|]. split; [|split].
    - unfold entered, shapeAt. simpl.
      rewrite !list_lookup_alter, !decide_True, Hr by done. simpl.
      eexists. split; [done|]. apply elem_of_add.
    - done.
    - by rewrite !otherRows_alter. }
  intros _.
  set (others := otherRows row p0).
  set (n := length (children r)).
  do 9 (eapply hoare_bind;
    [ first [ apply (hoare_editingNow row r others), keeps_orTextContent
            | apply (hoare_editingNow row r others), keeps_nowView_setCell ]
    | intros ? ]).
  eapply hoare_bind; [apply (setCell_in_range row 8 "" r others)|intros ?].
  eapply hoare_bind;
    [apply (hoare_editingNow row r others), keeps_nowView_appendChild|intros ?].
  eapply hoare_conseq;
    [apply (hoare_editingNow row r others (8 < length (children r) ∧ True)),
       keeps_nowView_appendChild
    | by intros p ? | | done].
  intros _ p [[Hlt _] Hnow]. split; [lia|done].
Qed.

End EnterFacts.

(** ** Leaving editing mode *)

Section LeaveFacts.
Context `{Platform}.

Lemma hoare_conj {A} (P : Page → Prop) (m : M A) (Q1 Q2 : A → Page → Prop)
    (T1 T2 : Page → Prop) :
  hoare P m Q1 T1 → hoare P m Q2 T2 →
  hoare P m (λ a p, Q1 a p ∧ Q2 a p) (λ p, T1 p ∧ T2 p).
Proof.
  intros H1 H2 p Hp. specialize (H1 p Hp). specialize (H2 p Hp).
  by destruct (m p) as [[a|] q].
Qed.

Lemma keeps_otherRows_restoreCells (row idx : nat) (vals : list string) :
  keeps (otherRows row) (restoreCells row idx vals).
Proof.
  revert idx. induction vals as [|v vals IH]; intros idx; simpl.
  - apply keeps_ret.
  - apply keeps_bind; [apply keeps_otherRows_setCell | intros _; apply IH].
Qed.

(** Cancelling a row in editing mode that has a saved value for each
    cell completes, assigns the saved values, clears [editingRow] and
    leaves the other rows alone. *)
Lemma cancelEditing_leaves (row : nat) (vals : list string)
    (others : list (option Row)) :
  hoare (λ p, saved row vals p ∧ otherRows row p = others)
    (cancelEditing row)
    (λ _ q, reassigned row vals q ∧ editingRow q = None
            ∧ otherRows row q = others)
    (λ _, False).
Proof.
  eapply hoare_conseq
    with (P' := λ p, saved row vals p ∧ otherRows row p = others)
         (Qn' := λ _ q, reassigned row vals q
                        ∧ (editingRow q = None ∧ otherRows row q = others))
         (Qt' := λ p, False ∧ True);
    [apply hoare_conj | done | by intros _ q (? & ? & ?) | by intros p [? _]].
  - eapply hoare_conseq; [apply (cancelEditing_reassigns row vals)| |done|done].
    by intros p (? & _).
  - unfold cancelEditing.
    apply hoare_bind
      with (R := λ x p, isEditing x ∧ otherRows row p = others).
    { apply hoare_getRow; [|done].
      intros p x ((cl & Hsh & Hcl) & Ho) Hx. split; [|done].
      unfold shapeAt in Hsh. rewrite Hx in Hsh. simpl in Hsh.
      injection Hsh as Hcx _ _. unfold isEditing. by rewrite Hcx. }
    intros x. apply hoare_pure. intros Hed%contains_true. rewrite Hed. simpl.
    apply hoare_bind with (R := λ _ p, otherRows row p = others).
    { eapply hoare_conseq;
        [apply preserves_hoare,
           (keeps_preserves (otherRows row) _ (λ v, v = others)),
           keeps_otherRows_restoreCells | done | done | done]. }
    intros _.
    apply hoare_bind with (R := λ _ p, otherRows row p = others).
    { apply hoare_modify. intros p <-. apply otherRows_alter. }
    intros _. by apply hoare_modify.
Qed.

(** Editing another row starts with cancelling the current one. *)
Lemma enableEditing_after_cancel (row e : nat) (p q : Page) :
  editingRow p = Some e → e ≠ row →
  cancelEditing e p = (Normal (), q) → editingRow q = None →
  enableEditing row p = enableEditing row q.
Proof.
  intros He Hne Hc Hq. unfold enableEditing.
  rewrite !(bind_eq get). simpl. rewrite He, Hq.
  rewrite bool_decide_eq_true_2 by done.
  rewrite (bind_eq (cancelEditing e)), Hc.
  by rewrite (bind_eq (mret ())).
Qed.

(** After a call that completed, the row exists and is not in editing
    mode. *)
Lemma cancelEditing_not_editing (row : nat) :
  hoare (λ _, True) (cancelEditing row)
    (λ _ q, ∃ x, rows q !! row = Some x ∧ ¬ isEditing x)
    (λ _, True).
Proof.
  unfold cancelEditing.
  apply hoare_bind with (R := λ r p, rows p !! row = Some r).
  { by apply hoare_getRow. }
  intros r. destruct (ClassList.contains "editing" (classList r)) eqn:Hc; simpl.
  - apply hoare_bind with (R := λ _ p, ∃ x, rows p !! row = Some x).
    { intros p Hp.
      pose proof (keeps_classView_restoreCells row 0
                    (default [] (_originalValues r)) p) as Hk.
      destruct (restoreCells _ _ _ p) as [[[]|] q]; [|done]. simpl in Hk.
      symmetry in Hk.
      destruct (classView_lookup q p row r Hk Hp) as (x & Hx & _). eauto. }
    intros _.
    apply hoare_bind
      with (R := λ _ p, ∃ x, rows p !! row = Some x ∧ ¬ isEditing x).
    { apply hoare_modify. intros p [x Hx]. eexists. split.
      - simpl. by rewrite list_lookup_alter, decide_True, Hx.
      - apply not_elem_of_remove. }
    intros _. by apply hoare_modify.
  - apply contains_false in Hc. apply hoare_ret. eauto.
Qed.

(** *** Saved values, one for each cell *)

Lemma cancellable_view (p q : Page) :
  savedView q = savedView p → cancellable p → cancellable q.
Proof.
  intros [= He Hr] Hc e re Hee Hre. rewrite He in Hee.
  assert (Hl : ((λ r, (_originalValues r, length (children r))) <$> rows p) !! e
               = Some (_originalValues re, length (children re))).
  { by rewrite <- Hr, list_lookup_fmap, Hre. }
  rewrite list_lookup_fmap in Hl.
  destruct (rows p !! e) as [r0|] eqn:Hr0; [|done].
  simpl in Hl. injection Hl as Ho Hn.
  destruct (Hc e r0 Hee Hr0) as (vals & Hv & Hlen).
  exists vals. split; congruence.
Qed.

Lemma savedView_alter (f : Row → Row) (row : nat) (p : Page) :
  (∀ r, _originalValues (f r) = _originalValues r
        ∧ length (children (f r)) = length (children r)) →
  savedView (set_rows (alter f row) p) = savedView p.
Proof.
  intros Hf. unfold savedView. simpl. f_equal.
  apply fmap_alter_same. intros r. by destruct (Hf r) as [-> ->].
Qed.

Lemma keeps_cancellable {A} (m : M A) :
  keeps savedView m → preserves cancellable m.
Proof. intros Hk p Hp. by apply (cancellable_view p). Qed.

Lemma keeps_savedView_setCell (row k : nat) (html : string) :
  keeps savedView (setCell row k html).
Proof.
  unfold setCell, modifyRow. keep_steps.
  apply keeps_modify. intros p. apply savedView_alter.
  intros r. simpl. by rewrite length_insert.
Qed.

Lemma keeps_savedView_restoreCells (row idx : nat) (vals : list string) :
  keeps savedView (restoreCells row idx vals).
Proof.
  revert idx. induction vals as [|v vals IH]; intros idx; simpl.
  - apply keeps_ret.
  - apply keeps_bind; [apply keeps_savedView_setCell | intros _; apply IH].
Qed.

Lemma cancelEditing_cancellable (row : nat) :
  preserves cancellable (cancelEditing row).
Proof.
  unfold cancelEditing, modifyRow. steps;
    first [ apply keeps_cancellable, keeps_savedView_restoreCells
          | apply keeps_cancellable, keeps_modify; intros p;
            by apply savedView_alter
          | apply preserves_modify; intros p _ e re He; discriminate He ].
Qed.

(** [enableEditing] saves a value for each cell before it writes to
    any. *)
Lemma enableEditing_cancellable (row : nat) :
  hoare cancellable (enableEditing row) (λ _, cancellable) cancellable.
Proof.
  unfold enableEditing.
  apply hoare_bind with (R := λ _ p, cancellable p).
  { by apply hoare_get. }
  intros p0.
  apply hoare_bind with (R := λ _ p, cancellable p).
  { apply preserves_hoare.
    destruct (editingRow p0) as [e|]; [case_bool_decide|];
      first [apply cancelEditing_cancellable | apply preserves_ret]. }
  intros _.
  apply hoare_bind with (R := λ r p, rows p !! row = Some r ∧ cancellable p).
  { by apply hoare_getRow. }
  intros r. destruct (ClassList.contains "editing" (classList r)).
  { apply hoare_ret. by intros p [_ ?]. }
  apply hoare_bind
    with (R := λ _ p, rows p !! row = Some r ∧ editingRow p = Some row).
  { apply hoare_modify. by intros p [? _]. }
  intros _.
  apply hoare_bind
    with (R := λ _ p, (∃ x, rows p !! row = Some x ∧ children x = children r)
                      ∧ editingRow p = Some row).
  { apply hoare_modify. intros p [Hr He]. split; [|done]. simpl.
    rewrite list_lookup_alter, decide_True, Hr by done. by eexists. }
  intros _.
  set (Q := λ v : option (list string * option (list string) * nat)
                  * (option nat * list (list string) * list (option Row)),
              v.2.1.1 = Some row
              ∧ ∃ cl vals, v.1 = Some (cl, Some vals, length vals)).
  apply hoare_bind with (R := λ _ p, Q (nowView row p)).
  { apply hoare_modify. intros p [(x & Hx & Hcx) He].
    unfold Q, nowView, classView, shapeAt. simpl. split; [done|].
    rewrite list_lookup_alter, decide_True, Hx by done. simpl.
    exists (classList x), (innerHTML <$> children r).
    by rewrite Hcx, length_fmap. }
  intros _.
  eapply hoare_conseq
    with (P' := λ p, Q (nowView row p)) (Qn' := λ _ p, Q (nowView row p))
         (Qt' := λ p, Q (nowView row p)).
  - apply preserves_hoare, (keeps_preserves (nowView row) _ Q).
    keep_steps;
      first [ apply keeps_orTextContent
            | apply keeps_nowView_setCell
            | apply keeps_nowView_appendChild ].
  - done.
  - intros _ p [He (cl & vals & Hs)] e re Hee Hre. simpl in He, Hs.
    rewrite He in Hee. injection Hee as <-.
    unfold shapeAt in Hs. rewrite Hre in Hs. simpl in Hs.
    injection Hs as _ Hv Hl. by exists vals.
  - intros p [He (cl & vals & Hs)] e re Hee Hre. simpl in He, Hs.
    rewrite He in Hee. injection Hee as <-.
    unfold shapeAt in Hs. rewrite Hre in Hs. simpl in Hs.
    injection Hs as _ Hv Hl. by exists vals.
Qed.

Lemma entered_lookup (row : nat) (r : Row) (p : Page) :
  entered row r p →
  ∃ r1, rows p !! row = Some r1 ∧ isEditing r1
        ∧ _originalValues r1 = Some (cellsHTML r)
        ∧ length (children r1) = length (children r).
Proof.
  intros (cl & Hs & Hcl). unfold shapeAt in Hs.
  destruct (rows p !! row) as [r1|]; [|done]. simpl in Hs.
  injection Hs as <- ? ?. by exists r1.
Qed.

(** [enableEditing] on a row that is not in editing mode starts with
    cancelling the edit in progress, if there is one, and goes on as it
    does from a page where nothing is being edited. *)
Lemma enableEditing_cancels_first (p : Page) (row : nat) (r : Row) :
  editingInvariant p → cancellable p →
  rows p !! row = Some r → ¬ isEditing r →
  ∃ q, enableEditing row p = enableEditing row q
       ∧ editingRow q = None
       ∧ rows q !! row = Some r
       ∧ (∀ e re vals, editingRow p = Some e → rows p !! e = Some re →
            _originalValues re = Some vals →
            e ≠ row ∧ isEditing re ∧ reassigned e vals q)
       ∧ (∀ k, editingRow p ≠ Some k → rows q !! k = rows p !! k).
Proof.
  intros [H1 H2] Hcan Hr Hned.
  destruct (editingRow p) as [e|] eqn:He.
  2: { exists p. repeat split; try done. }
  destruct (H2 e eq_refl) as (re & Hre & Hed).
  assert (Hne : e ≠ row).
  { intros ->. rewrite Hr in Hre. by injection Hre as <-. }
  destruct (Hcan e re He Hre) as (vals & Hv & Hlen).
  assert (Hs : saved e vals p ∧ otherRows e p = otherRows e p).
  { split; [|done]. exists (classList re). split; [|done].
    unfold shapeAt. rewrite Hre. simpl. by rewrite Hv, Hlen. }
  pose proof (cancelEditing_leaves e vals (otherRows e p) p Hs) as Hc.
  destruct (cancelEditing e p) as [[[]|] q] eqn:Ec; [|done].
  destruct Hc as (Hre' & Hq & Ho).
  exists q. split; [by apply (enableEditing_after_cancel row e)|].
  split; [done|]. split; [|split].
  - rewrite <- Hr. apply (otherRows_lookup e); [done|]. by intros ->.
  - intros e' re' vals' [= <-] Hre2 Hv2.
    rewrite Hre in Hre2. injection Hre2 as <-.
    rewrite Hv in Hv2. injection Hv2 as <-. done.
  - intros k Hk. apply (otherRows_lookup e); [done|]. intros ->. by apply Hk.
Qed.

End LeaveFacts.

(** C9: at most one row is in editing mode.  The invariant, that a row
    carrying the [editing] class is [editingRow] and that [editingRow]
    carries it, is kept by every call of [enableEditing] and of
    [cancelEditing], however the call completes.  [enableEditing] on
    the row being edited does nothing.  On a row that is not being
    edited, [enableEditing] cancels the edit in progress and enters the
    row, whether or not it then completes: the row carries the class
    and is [editingRow], no other row carries the class, the row edited
    before has lost the class and has been assigned its saved values,
    and the remaining rows are untouched.  [cancelEditing] on the row
    being edited leaves no row in editing mode.  The two last parts are
    about a page where the row being edited has a saved value for each
    of its cells, which the two calls keep true as well. *)
Theorem editing_invariant_preserved `{Platform} (p : Page) (row : nat) :
  editingInvariant p →
  editingInvariant (run (enableEditing row) p)
  ∧ editingInvariant (run (cancelEditing row) p)
  ∧ (∀ r, rows p !! row = Some r → isEditing r →
       enableEditing row p = (Normal (), p))
  ∧ (∀ r, rows p !! row = Some r → ¬ isEditing r → cancellable p →
       let p' := run (enableEditing row) p in
       editingRow p' = Some row
       ∧ (∃ r', rows p' !! row = Some r' ∧ isEditing r')
       ∧ (∀ i ri, rows p' !! i = Some ri → isEditing ri → i = row)
       ∧ (∀ e re vals, editingRow p = Some e → rows p !! e = Some re →
            _originalValues re = Some vals →
            e ≠ row ∧ isEditing re ∧ reassigned e vals p')
       ∧ (∀ k, k ≠ row → editingRow p ≠ Some k →
            rows p' !! k = rows p !! k))
  ∧ (∀ r, rows p !! row = Some r → isEditing r → cancellable p →
       let p' := run (cancelEditing row) p in
       editingRow p' = None
       ∧ (∀ i ri, rows p' !! i = Some ri → ¬ isEditing ri)
       ∧ (∀ vals, _originalValues r = Some vals → reassigned row vals p')
       ∧ (∀ k, k ≠ row → rows p' !! k = rows p !! k))
  ∧ (cancellable p →
       cancellable (run (enableEditing row) p)
       ∧ cancellable (run (cancelEditing row) p)).
Proof.
  intros Hinv.
  assert (Hen : editingInvariant (run (enableEditing row) p)).
  { pose proof (enableEditing_invariant row p Hinv) as He. unfold run.
    destruct (enableEditing row p) as [[[]|] p']; simpl; tauto. }
  assert (Hca : editingInvariant (run (cancelEditing row) p)).
  { pose proof (cancelEditing_invariant row (editingRow p) p (conj Hinv eq_refl))
      as Hc. unfold run.
    destruct (cancelEditing row p) as [[[]|] p']; simpl; tauto. }
  split; [done|]. split; [done|]. split; [|split; [|split]].
  - intros r. by apply enableEditing_again.
  - intros r Hr Hned Hcan p'.
    destruct (enableEditing_cancels_first p row r Hinv Hcan Hr Hned)
      as (q & E & Hq & Hqr & Hprev & Hrest).
    pose proof (enableEditing_fresh row r q Hqr Hned Hq q eq_refl) as Hh.
    assert (Hnow : editingNow row r (otherRows row q) p').
    { unfold p', run. rewrite E.
      destruct (enableEditing row q) as [[[]|] p3]; simpl; tauto. }
    destruct Hnow as (Hent & He' & Ho).
    destruct (entered_lookup row r p' Hent) as (r' & Hr' & Hed' & _).
    split; [done|]. split; [by exists r'|]. split; [|split].
    + intros i ri Hi Hri. destruct Hen as [H1 _].
      pose proof (H1 i ri Hi Hri) as Ei. fold p' in Ei. congruence.
    + intros e re vals He Hre Hv.
      destruct (Hprev e re vals He Hre Hv) as (Hne & Hed & r2 & Hr2 & Hrest2).
      split; [done|]. split; [done|]. exists r2. split; [|done].
      rewrite <- Hr2. by apply (otherRows_lookup row).
    + intros k Hk Hke. rewrite <- (Hrest k Hke).
      by apply (otherRows_lookup row).
  - intros r Hr Hed Hcan p'. destruct Hinv as [H1 H2].
    pose proof (H1 row r Hr Hed) as He.
    destruct (Hcan row r He Hr) as (vals & Hv & Hlen).
    assert (Hs : saved row vals p ∧ otherRows row p = otherRows row p).
    { split; [|done]. exists (classList r). split; [|done].
      unfold shapeAt. rewrite Hr. simpl. by rewrite Hv, Hlen. }
    pose proof (cancelEditing_leaves row vals (otherRows row p) p Hs) as Hc.
    assert (Hp' : reassigned row vals p' ∧ editingRow p' = None
                  ∧ otherRows row p' = otherRows row p).
    { unfold p', run. by destruct (cancelEditing row p) as [[[]|] q]. }
    destruct Hp' as (Hre & He' & Ho).
    split; [done|]. split; [|split].
    + intros i ri Hi Hri. destruct Hca as [H1' _].
      pose proof (H1' i ri Hi Hri) as Ei. fold p' in Ei. congruence.
    + intros vals' Hv'. rewrite Hv in Hv'. by injection Hv' as <-.
    + intros k Hk. by apply (otherRows_lookup row).
  - intros Hcan. split.
    + pose proof (enableEditing_cancellable row p Hcan) as Hc. unfold run.
      by destruct (enableEditing row p) as [[[]|] p'].
    + by apply cancelEditing_cancellable.
Qed.

Lemma editing_invariant_preserved_witness :
  let p := run (@enableEditing Sample.platform 0)
             (Sample.page [Sample.hobbit; Sample.emma] "" false) in
  let p' := run (@enableEditing Sample.platform 1) p in
  editingRow p = Some 0
  ∧ editingInvariant p'
  ∧ editingRow p' = Some 1
  ∧ (∃ r', rows p' !! 1 = Some r' ∧ isEditing r')
  ∧ (∀ i ri, rows p' !! i = Some ri → isEditing ri → i = 1)
  ∧ @reassigned Sample.platform 0 (cellsHTML Sample.hobbit) p'
  ∧ cancellable p'.
Proof.
  intros p p'.
  set (p0 := Sample.page [Sample.hobbit; Sample.emma] "" false) in *.
  assert (Hinv : editingInvariant p).
  { assert (Hinv0 : editingInvariant p0).
    { split.
      - intros [|[|i]] r [= <-] Hr; apply list_elem_of_In in Hr; destruct Hr.
      - intros i Hi. discriminate Hi. }
    pose proof (@enableEditing_invariant Sample.platform 0 p0 Hinv0) as He.
    unfold p, run.
    destruct (@enableEditing Sample.platform 0 p0) as [[[]|] q]; simpl; tauto. }
  assert (Hcan : cancellable p).
  { assert (Hcan0 : cancellable p0) by (intros e re He; discriminate He).
    pose proof (@enableEditing_cancellable Sample.platform 0 p0 Hcan0) as Hc.
    unfold p, run.
    by destruct (@enableEditing Sample.platform 0 p0) as [[[]|] q]. }
  destruct (@editing_invariant_preserved Sample.platform p 1 Hinv)
    as (H1 & _ & _ & H4 & _ & H6).
  assert (Hr1 : rows p !! 1 = Some Sample.emma) by (vm_compute; reflexivity).
  assert (Hned : ¬ isEditing Sample.emma).
  { intros Hed. apply list_elem_of_In in Hed. destruct Hed. }
  destruct (H4 Sample.emma Hr1 Hned Hcan) as (Ha & Hb & Hc & Hd & _).
  split; [vm_compute; reflexivity|]. split; [exact H1|].
  split; [exact Ha|]. split; [exact Hb|]. split; [exact Hc|]. split.
  - apply (Hd 0 (default Sample.hobbit (rows p !! 0)) (cellsHTML Sample.hobbit));
      vm_compute; reflexivity.
  - apply (proj1 (H6 Hcan)).
Defined.

(** ** Cancel after edit, as a round trip *)





Example edit_then_cancel_sample :
  let p := Sample.page [Sample.hobbit; Sample.emma] "" false in
  let p1 := @handle Sample.platform (EditClick 0) p in
  let p2 := @handle Sample.platform (CancelClick 0) p1 in
  (cellsHTML <$> rows p1) !! 0 ≠ (cellsHTML <$> rows p) !! 0
  ∧ cellsHTML <$> rows p2 = cellsHTML <$> rows p
  ∧ classList <$> rows p1 = [["editing"]; []]
  ∧ classList <$> rows p2 = [[]; []]
  ∧ editingRow p1 = Some 0 ∧ editingRow p2 = None.
Proof. vm_compute. repeat split. discriminate. Qed.

(** ** The invariant over the life of the page *)

Section InvariantFacts.
Context `{Platform}.

Lemma classView_filterRows (p : Page) : classView (filterRows p) = classView p.
Proof.
  unfold classView, filterRows. simpl. f_equal.
  rewrite <- list_fmap_compose. apply list_fmap_ext.
  intros i r _. simpl. by destruct (filterRow_frame (filterQuery p) (filterLiveOnly p) r) as (_ & -> & _).
Qed.

Lemma classView_showError (msg : string) (p : Page) :
  classView (showError msg p) = classView p.
Proof. unfold showError. by case_match. Qed.

Lemma classView_stopScanner (p : Page) : classView (stopScanner p) = classView p.
Proof. unfold stopScanner. by case_match. Qed.

Lemma classView_startScanner (mode : ScanMode) (p : Page) :
  classView (startScanner mode p) = classView p.
Proof.
  unfold startScanner. repeat case_match; by rewrite ?classView_showError.
Qed.

Lemma keeps_classView_emit (e : Row → Effect) (row : nat) :
  keeps classView (r ← getRow row; modify (emit (e r))).
Proof. keep_steps. by apply keeps_modify. Qed.

(** Every listener keeps the invariant. *)
Lemma editingInvariant_handle (ev : Event) (p : Page) :
  editingInvariant p → editingInvariant (handle ev p).
Proof.
  intros Hinv.
  assert (Hview : ∀ q, classView q = classView p → editingInvariant q).
  { intros q Hq. by apply (editingInvariant_view p). }
  destruct ev; simpl.
  - by apply Hview, classView_startScanner.
  - by apply Hview, classView_stopScanner.
  - apply Hview. unfold startRejected. by rewrite classView_showError.
  - destruct onDecoded; apply Hview.
    + unfold onDecodedDefault. case_match.
      * change (classView (stopScanner p) = classView p).
        apply classView_stopScanner.
      * rewrite classView_showError, classView_stopScanner. done.
    + unfold onDecodedMarkRead.
      change (classView (stopScanner p) = classView p).
      apply classView_stopScanner.
  - apply Hview. unfold stopSettled. by case_match.
  - apply Hview. unfold hideError. by case_match.
  - apply Hview. unfold toggleGiftFromVisibility. simpl. by repeat case_match.
  - apply Hview. case_match; [|done]. by rewrite classView_filterRows.
  - apply Hview. case_match; [|done]. by rewrite classView_filterRows.
  - apply Hview. apply (keeps_classView_emit _ row).
  - apply Hview. unfold liveToggleSettled, liveToggleThen. case_match; [|done].
    rewrite classView_filterRows. by apply classView_alter.
  - apply Hview. apply (keeps_classView_emit _ row).
  - apply Hview. unfold markReadSettled. by case_match.
  - by apply Hview, classView_startScanner.
  - apply Hview. unfold readByIsbnSettled.
    repeat case_match; by rewrite ?classView_showError.
  - pose proof (enableEditing_invariant row p Hinv) as He. unfold run.
    destruct (enableEditing row p) as [[[]|] p']; simpl; tauto.
  - apply Hview. apply (keeps_classView_emit _ row).
  - apply Hview. unfold saveSettled.
    repeat case_match; by rewrite ?classView_showError.
  - pose proof (cancelEditing_invariant row (editingRow p) p (conj Hinv eq_refl)) as Hc.
    unfold run. destruct (cancelEditing row p) as [[[]|] p']; simpl; tauto.
Qed.

(** X23: a page as the server renders it, with no row in editing mode,
    has at most one row in editing mode after any sequence of events. *)
Lemma editingInvariant_always (evs : list Event) (p : Page) :
  editingRow p = None → Forall (λ r, ¬ isEditing r) (rows p) →
  editingInvariant (handleAll evs (onLoad p)).
Proof.
  intros He Hrows.
  assert (Hinv : editingInvariant (onLoad p)).
  { apply (editingInvariant_view p).
    - unfold onLoad. rewrite classView_filterRows.
      unfold toggleGiftFromVisibility. by repeat case_match.
    - split; [|by rewrite He].
      intros i r Hi Hr. rewrite Forall_lookup in Hrows.
      by destruct (Hrows i r Hi). }
  clear He Hrows. unfold handleAll. revert Hinv. generalize (onLoad p).
  induction evs as [|ev evs IH]; intros q Hq; simpl; [done|].
  by apply IH, editingInvariant_handle.
Qed.
End InvariantFacts.


(** ** The script on a sample page *)

Section Samples.
Import Sample.
#[local] Existing Instance platform.

(** Two books, one live; the query is trimmed and lowercased before it
    is looked for, and the live-only box hides the book that is not
    live. *)
Example filterRows_sample :
  style_display <$> rows (onLoad (page [hobbit; emma] "" false)) = [""; ""]
  ∧ style_display <$> rows (onLoad (page [hobbit; emma] "" true)) = [""; "none"]
  ∧ style_display <$> rows (onLoad (page [hobbit; emma] "  AUSTEN " false))
    = ["none"; ""]
  ∧ style_display <$> rows (onLoad (page [hobbit; emma] "fantasy" false))
    = [""; "none"]
  ∧ style_display <$> rows (onLoad (page [hobbit; emma] "austen" true))
    = ["none"; "none"].
Proof. vm_compute. repeat split. Qed.

(** A scanned code that is in no row fills the Add form and contacts
    nobody. *)
Example default_scan_unknown_sample :
  let p := set_html5QrCode true (page [hobbit; emma] "" false) in
  let p' := handle (ScannerDecoded DefaultScan "978-1-23") p in
  isbnInput p' = "978-1-23"
  ∧ log p' = [ScannerStop; SetTimeout 6000]
  ∧ errorMessageDiv p'
    = Some {| err_textContent :=
                "Scanned ISBN not found in your library — filled Add form.";
              err_display := "block" |}.
Proof. vm_compute. repeat split. Qed.

(** Each of the three endpoints is the target of some listener. *)
Example three_endpoints_sample :
  let p := set_html5QrCode true (page [hobbit; emma] "" false) in
  let form := {| edit_title := " Emma "; edit_authors := "Jane Austen";
                 edit_tags := "classic"; edit_gift_from := "";
                 edit_gift_toggle := false |} in
  (λ e, match e with Fetch r => Some (method r, url r, body r) | _ => None end)
    <$> log (handleAll
               [LiveToggleChange 1 true; MarkReadClick 0; SaveClick 1 form;
                ScannerDecoded MarkReadScan "9780141439587"] p)
  = [Some ("POST", "/update/2", Some "is_live=true");
     Some ("POST", "/read/1", None);
     Some ("POST", "/update/2",
           Some "title=Emma&authors=Jane Austen&tags=classic&gift_from=&is_gift=false");
     None;
     Some ("POST", "/read_by_isbn", Some "isbn=9780141439587")].
Proof. vm_compute. reflexivity. Qed.

(** What the cells read after markup was assigned to them: a [pre]
    has lost the line feed after its start tag, the bare [checked]
    attribute has an empty value, the blank before the closing bracket
    is gone, and of the characters [escapeHtml] had escaped in a value
    only the ampersand and the double quote are escaped again. *)
Example readBack_sample :
  let q s := Str.dq +:+ s +:+ Str.dq in
  readBack ("<pre>" +:+ lineFeed +:+ "2024-05-01</pre>") = "<pre>2024-05-01</pre>"
  ∧ readBack ("<pre>" +:+ lineFeed +:+ lineFeed +:+ "2024-05-01</pre>")
    = "<pre>" +:+ lineFeed +:+ "2024-05-01</pre>"
  ∧ readBack (giftInput true)
    = "<input type=" +:+ q "checkbox" +:+ " class=" +:+ q "edit-gift-toggle"
        +:+ " checked=" +:+ q "" +:+ ">"
  ∧ readBack (giftInput false)
    = "<input type=" +:+ q "checkbox" +:+ " class=" +:+ q "edit-gift-toggle"
        +:+ ">"
  ∧ readBack (textInput "edit-title" "Emma's <best> & more")
    = "<input type=" +:+ q "text" +:+ " class=" +:+ q "edit-title"
        +:+ " value=" +:+ q "Emma's <best> &amp; more" +:+ ">"
  ∧ readBack <$> cellsHTML hobbit = cellsHTML hobbit.
Proof. vm_compute. repeat split. Qed.

(** A row with fewer than nine cells: [enableEditing] throws after it
    has marked the row, and [cancelEditing] still puts the cells back. *)
Example short_row_sample :
  let short := set_children (take 4) hobbit in
  let p := page [short] "" false in
  let '(c1, p1) := enableEditing 0 p in
  let '(c2, p2) := cancelEditing 0 p1 in
  c1 = Throw ∧ classList <$> rows p1 = [["editing"]]
  ∧ c2 = Normal ()
  ∧ cellsHTML <$> rows p2 = cellsHTML <$> rows p
  ∧ classList <$> rows p2 = [[]].
Proof. vm_compute. repeat split. Qed.

End Samples.


(** * Further properties *)

(** ** Strings *)

Section MoreStringFacts.

Lemma string_app_assoc (a b c : string) : (a +:+ b) +:+ c = a +:+ (b +:+ c).
Proof. induction a; simpl; congruence. Qed.

Lemma replace_g_app (class : ascii → bool) (by_ a b : string) :
  Str.replace_g class by_ (a +:+ b)
  = Str.replace_g class by_ a +:+ Str.replace_g class by_ b.
Proof.
  induction a as [|c a IH]; simpl; [done|].
  destruct (class c); simpl; rewrite IH; [|done].
  by rewrite string_app_assoc.
Qed.

Lemma string_length_app (a b : string) :
  String.length (a +:+ b) = String.length a + String.length b.
Proof. induction a; simpl; congruence. Qed.

Lemma escapeChar_special (c : ascii) :
  if isSpecial c
  then ∃ tail, escapeChar c = String "&"%char tail ∧ 2 ≤ String.length tail
  else escapeChar c = String c "".
Proof.
  unfold isSpecial, escapeChar, Str.isChar.
  repeat case_bool_decide; simpl;
    first [done | eexists; split; [reflexivity | simpl; lia]].
Qed.

Lemma escapeHtml_length (s : string) :
  String.length s ≤ String.length (escapeHtml s).
Proof.
  induction s as [|c s IH]; [done|].
  rewrite escapeHtml_cons, string_length_app.
  pose proof (escapeChar_special c) as Hc.
  destruct (isSpecial c); [destruct Hc as (tail & -> & ?)|rewrite Hc]; simpl; lia.
Qed.

Lemma decodeEntities_escapeHtml (s : string) :
  decodeEntities (escapeHtml s) = s.
Proof.
  induction s as [|c s IH]; [done|].
  rewrite escapeHtml_cons. unfold escapeChar, Str.isChar.
  repeat case_bool_decide; subst; [by simpl; rewrite IH..|].
  change (String c "" +:+ escapeHtml s) with (String c (escapeHtml s)).
  rewrite decodeEntities_other by done. by rewrite IH.
Qed.

(** A string is left alone exactly when it holds none of the five
    characters. *)
Lemma escapeHtml_fixed (s : string) :
  escapeHtml s = s ↔ Forall (λ c, isSpecial c = false) (Str.to_list s).
Proof.
  induction s as [|c s IH]; simpl.
  - split; [constructor|done].
  - rewrite escapeHtml_cons, Forall_cons, <- IH.
    pose proof (escapeChar_special c) as Hc.
    destruct (isSpecial c).
    + destruct Hc as (tail & -> & Hlen). split; [|by intros [? _]].
      simpl. intros [= _ E]. exfalso.
      apply (f_equal String.length) in E.
      rewrite string_length_app in E.
      pose proof (escapeHtml_length s). lia.
    + rewrite Hc. simpl. split; [by intros [= ->]|by intros [_ ->]].
Qed.

End MoreStringFacts.

(** X1: [normalizeIsbn] works character by character: the digits of a
    concatenation are the digits of its parts, and a separator with no
    digit in it (hyphens, spaces) makes no difference wherever it
    stands. *)
Theorem normalizeIsbn_concat (a sep b : string) :
  normalizeIsbn (JsString (a +:+ b))
    = normalizeIsbn (JsString a) +:+ normalizeIsbn (JsString b)
  ∧ (Forall (λ c, Str.isDigit c = false) (Str.to_list sep) →
     normalizeIsbn (JsString (a +:+ sep +:+ b)) = normalizeIsbn (JsString (a +:+ b))
     ∧ normalizeIsbn (JsString sep) = "").
Proof.
  rewrite !normalizeIsbn_string, !replace_g_app. split; [done|].
  intros Hsep.
  assert (Str.replace_g Str.nonDigit "" sep = "") as ->; [|done].
  induction sep as [|c sep IH]; simpl; [done|].
  apply Forall_cons in Hsep as [Hc Hsep]. unfold Str.nonDigit at 1.
  rewrite Hc. simpl. auto.
Qed.

(** X2: [escapeHtml] never shortens its input, returns it unchanged
    exactly when it holds none of the five characters, is injective,
    and is idempotent on no other input: escaping an escaped text
    again changes it unless there was nothing to escape. *)
Theorem escapeHtml_fixed_points (s t : string) :
  String.length s ≤ String.length (escapeHtml s)
  ∧ (escapeHtml s = s ↔ Forall (λ c, isSpecial c = false) (Str.to_list s))
  ∧ (escapeHtml s = escapeHtml t → s = t)
  ∧ (escapeHtml (escapeHtml s) = escapeHtml s ↔ escapeHtml s = s).
Proof.
  split; [apply escapeHtml_length|]. split; [apply escapeHtml_fixed|]. split.
  - intros E. apply (f_equal decodeEntities) in E.
    by rewrite !decodeEntities_escapeHtml in E.
  - split; [|intros E; by rewrite !E].
    intros E. apply (f_equal decodeEntities) in E.
    by rewrite !decodeEntities_escapeHtml in E.
Qed.

(** ** Filtering *)

Section MoreFilterFacts.
Context `{Platform}.

Lemma filterRow_set_display (query : string) (liveOnly : bool) (d : string) (r : Row) :
  filterRow query liveOnly (set_style_display d r) = filterRow query liveOnly r.
Proof. unfold filterRow, dataset_get. simpl. by case_match. Qed.

Lemma filterRow_idem (query : string) (liveOnly : bool) (r : Row) :
  filterRow query liveOnly (filterRow query liveOnly r) = filterRow query liveOnly r.
Proof.
  unfold filterRow at 2. case_match; apply filterRow_set_display.
Qed.

Lemma substring_empty (q : string) : substring q "" → q = "".
Proof.
  intros (pre & post & E). destruct pre; [|done]. by destruct q.
Qed.

End MoreFilterFacts.

(** X3: filtering twice is filtering once, and the display a row had
    before is irrelevant: [filterRows] sets every row's display anew
    from the row's data and the two controls. *)
Theorem filterRows_overrides_display `{Platform} (p : Page) (d : Row → string) :
  filterRows (filterRows p) = filterRows p
  ∧ filterRows (set_rows (map (λ r, set_style_display (d r) r)) p) = filterRows p.
Proof.
  split.
  - unfold filterRows, set_rows. simpl. f_equal.
    rewrite map_map. apply map_ext. intros r. apply filterRow_idem.
  - unfold filterRows, set_rows. simpl. f_equal.
    rewrite map_map. apply map_ext. intros r. apply filterRow_set_display.
Qed.

(** X4: with an empty query (or no search box) and the live-only box
    unchecked (or absent), [filterRows] displays every row, whatever
    the rows hold. *)
Theorem filterRows_unfiltered_shows_all `{Platform} (p : Page) :
  filterQuery p = "" → filterLiveOnly p = false →
  Forall displayed (rows (filterRows p)).
Proof.
  intros Hq Hl. unfold filterRows. simpl. rewrite Hq, Hl.
  apply Forall_forall. intros r' [r [-> _]]%list_elem_of_fmap.
  apply filterRow_display. split; auto.
Qed.

Lemma filterRows_unfiltered_shows_all_witness :
  Forall displayed
    (rows (@filterRows Sample.platform
             (Sample.page [Sample.hobbit; Sample.emma] "  " false))).
Proof.
  exact (@filterRows_unfiltered_shows_all Sample.platform
           (Sample.page [Sample.hobbit; Sample.emma] "  " false)
           eq_refl eq_refl).
Defined.

(** X5: missing attributes count as empty text.  Where lowercasing the
    empty string gives the empty string, a row without [data-live] is
    hidden while the live-only box is checked, and a row without
    [data-title], [data-authors] and [data-tags] is hidden by every
    query that is not empty. *)
Theorem filterRows_missing_attributes `{Platform} (p : Page) (i : nat) (r : Row) :
  toLowerCase "" = "" →
  rows p !! i = Some r →
  ∃ r', rows (filterRows p) !! i = Some r'
    ∧ (dataset r !! "live" = None → liveOnlyCheckbox p = Some true → hidden r')
    ∧ (dataset r !! "title" = None → dataset r !! "authors" = None →
       dataset r !! "tags" = None → filterQuery p ≠ "" → hidden r').
Proof.
  intros Hlow Hr. exists (filterRow (filterQuery p) (filterLiveOnly p) r).
  split; [by rewrite filterRows_lookup, Hr|]. split.
  - intros Hlive Hbox. apply filterRow_display. intros [_ [Hl|Hl]].
    + unfold filterLiveOnly in Hl. by rewrite Hbox in Hl.
    + unfold data in Hl. rewrite Hlive in Hl. simpl in Hl.
      by rewrite Hlow in Hl.
  - intros Ht Ha Hg Hq. apply filterRow_display.
    unfold passesFilter, data. rewrite Ht, Ha, Hg. simpl. rewrite Hlow.
    intros [[?|[?%substring_empty|[?%substring_empty|?%substring_empty]]] _]; done.
Qed.

Lemma filterRows_missing_attributes_witness :
  let bare := set_dataset (λ _, ∅) Sample.hobbit in
  let p := Sample.page [bare] "hobbit" true in
  ∃ r', rows (@filterRows Sample.platform p) !! 0 = Some r'
    ∧ (dataset bare !! "live" = None → liveOnlyCheckbox p = Some true → hidden r')
    ∧ (dataset bare !! "title" = None → dataset bare !! "authors" = None →
       dataset bare !! "tags" = None → @filterQuery Sample.platform p ≠ "" → hidden r').
Proof.
  intros bare p.
  exact (@filterRows_missing_attributes Sample.platform p 0 bare eq_refl eq_refl).
Defined.

(** ** What editing leaves alone *)

Section EditingFrame.
Context `{Platform} {W : Type} (pv : Page → W).
Hypothesis Hchildren :
  ∀ g row p, pv (set_rows (alter (set_children g) row) p) = pv p.
Hypothesis HclassList :
  ∀ g row p, pv (set_rows (alter (set_classList g) row) p) = pv p.
Hypothesis HoriginalValues :
  ∀ v row p, pv (set_rows (alter (set__originalValues v) row) p) = pv p.
Hypothesis HeditingRow : ∀ e p, pv (set_editingRow e p) = pv p.

Lemma frame_setCell (row k : nat) (html : string) : keeps pv (setCell row k html).
Proof using Hchildren.
  unfold setCell, modifyRow. keep_steps. by apply keeps_modify.
Qed.

Lemma frame_appendChild (row k : nat) (html : string) :
  keeps pv (appendChild row k html).
Proof using Hchildren.
  unfold appendChild, modifyRow. keep_steps. by apply keeps_modify.
Qed.

Lemma frame_restoreCells (row idx : nat) (vals : list string) :
  keeps pv (restoreCells row idx vals).
Proof using Hchildren.
  revert idx. induction vals as [|v vals IH]; intros idx; simpl.
  - apply keeps_ret.
  - apply keeps_bind; [apply frame_setCell | intros _; apply IH].
Qed.

Lemma frame_cancelEditing (row : nat) : keeps pv (cancelEditing row).
Proof using Hchildren HclassList HeditingRow.
  unfold cancelEditing, modifyRow. keep_steps;
    first [apply frame_restoreCells | by apply keeps_modify].
Qed.

Lemma frame_enableEditing (row : nat) : keeps pv (enableEditing row).
Proof using Hchildren HclassList HoriginalValues HeditingRow.
  unfold enableEditing, modifyRow. keep_steps;
    first [ apply frame_cancelEditing
          | apply keeps_orTextContent
          | apply frame_setCell
          | apply frame_appendChild
          | by apply keeps_modify ].
Qed.

End EditingFrame.

Section FrameFacts.
Context `{Platform}.

Lemma outsideEditing_alter (f : Row → Row) (row : nat) (p : Page) :
  (∀ r, dataset (f r) = dataset r ∧ style_display (f r) = style_display r) →
  outsideEditing (set_rows (alter f row) p) = outsideEditing p.
Proof.
  intros Hf. unfold outsideEditing. simpl.
  rewrite fmap_alter_same; [done|]. intros r. by destruct (Hf r) as [-> ->].
Qed.

Lemma fixedData_alter (f : Row → Row) (row : nat) (p : Page) :
  (∀ r, delete "live" (dataset (f r)) = delete "live" (dataset r)) →
  fixedData (set_rows (alter f row) p) = fixedData p.
Proof. intros Hf. unfold fixedData. simpl. by apply fmap_alter_same. Qed.

Lemma fixedData_filterRows (p : Page) : fixedData (filterRows p) = fixedData p.
Proof.
  unfold fixedData, filterRows. simpl.
  rewrite <- list_fmap_compose. apply list_fmap_ext. intros i r _. simpl.
  by destruct (filterRow_frame (filterQuery p) (filterLiveOnly p) r) as (-> & _).
Qed.

Lemma fixedData_showError (msg : string) (p : Page) :
  fixedData (showError msg p) = fixedData p.
Proof. unfold showError. by case_match. Qed.

Lemma fixedData_stopScanner (p : Page) : fixedData (stopScanner p) = fixedData p.
Proof. unfold stopScanner. by case_match. Qed.

Lemma fixedData_startScanner (mode : ScanMode) (p : Page) :
  fixedData (startScanner mode p) = fixedData p.
Proof. unfold startScanner. repeat case_match; by rewrite ?fixedData_showError. Qed.

Lemma keeps_emit {W} (pv : Page → W) (e : Row → Effect) (row : nat) :
  (∀ x p, pv (emit x p) = pv p) →
  keeps pv (r ← getRow row; modify (emit (e r))).
Proof. intros He. keep_steps. by apply keeps_modify. Qed.

(** One event leaves every attribute but [data-live] as it was. *)
Lemma fixedData_handle (ev : Event) (p : Page) :
  fixedData (handle ev p) = fixedData p.
Proof.
  destruct ev; simpl.
  - apply fixedData_startScanner.
  - apply fixedData_stopScanner.
  - unfold startRejected. by rewrite fixedData_showError.
  - destruct onDecoded.
    + unfold onDecodedDefault. case_match.
      * change (fixedData (stopScanner p) = fixedData p).
        apply fixedData_stopScanner.
      * by rewrite fixedData_showError, fixedData_stopScanner.
    + change (fixedData (stopScanner p) = fixedData p).
      apply fixedData_stopScanner.
  - unfold stopSettled. by case_match.
  - unfold hideError. by case_match.
  - unfold toggleGiftFromVisibility. simpl. by repeat case_match.
  - case_match; [|done]. by rewrite fixedData_filterRows.
  - case_match; [|done]. by rewrite fixedData_filterRows.
  - by apply (keeps_emit fixedData _ row).
  - unfold liveToggleSettled, liveToggleThen. case_match; [|done].
    rewrite fixedData_filterRows. apply fixedData_alter.
    intros r. simpl. apply delete_insert_eq.
  - by apply (keeps_emit fixedData _ row).
  - unfold markReadSettled. by case_match.
  - apply fixedData_startScanner.
  - unfold readByIsbnSettled. repeat case_match; by rewrite ?fixedData_showError.
  - apply (frame_enableEditing fixedData); intros; by try apply fixedData_alter.
  - by apply (keeps_emit fixedData _ row).
  - unfold saveSettled. repeat case_match; by rewrite ?fixedData_showError.
  - apply (frame_cancelEditing fixedData); intros; by try apply fixedData_alter.
Qed.

End FrameFacts.

(** X6: whatever the user does and whatever the server answers, the
    table keeps its rows, in number and order, and every row keeps its
    [data-*] attributes; [data-live] is the only one the script ever
    writes. *)
Theorem only_data_live_is_written `{Platform} (evs : list Event) (p : Page) :
  fixedData (handleAll evs p) = fixedData p
  ∧ length (rows (handleAll evs p)) = length (rows p)
  ∧ ∀ i r r' key, rows p !! i = Some r → rows (handleAll evs p) !! i = Some r' →
      key ≠ "live" → dataset r' !! key = dataset r !! key.
Proof.
  assert (Hfix : fixedData (handleAll evs p) = fixedData p).
  { unfold handleAll. revert p. induction evs as [|ev evs IH]; intros p; [done|].
    simpl. by rewrite IH, fixedData_handle. }
  split; [done|]. split.
  - apply (f_equal length) in Hfix. unfold fixedData in Hfix.
    by rewrite !length_fmap in Hfix.
  - intros i r r' key Hr Hr' Hkey.
    apply (f_equal (λ l, l !! i)) in Hfix. unfold fixedData in Hfix.
    rewrite !list_lookup_fmap, Hr, Hr' in Hfix. simpl in Hfix.
    injection Hfix as Hfix. apply (f_equal (λ m, m !! key)) in Hfix.
    by rewrite !lookup_delete_ne in Hfix.
Qed.

(** X7: [enableEditing] and [cancelEditing] rewrite cells, classes,
    saved values and [editingRow] and nothing else: however they
    complete, they log no call (so send no request), and leave the
    data and the display of every row, the controls, the error box,
    the Add form and the scanner as they were. *)
Theorem editing_touches_nothing_else `{Platform} (row : nat) (p : Page) :
  outsideEditing (run (enableEditing row) p) = outsideEditing p
  ∧ outsideEditing (run (cancelEditing row) p) = outsideEditing p.
Proof.
  split.
  - apply (frame_enableEditing outsideEditing); intros;
      by try apply outsideEditing_alter.
  - apply (frame_cancelEditing outsideEditing); intros;
      by try apply outsideEditing_alter.
Qed.

Section EditViewFacts.
Context `{Platform}.

Lemma editView_alter (f : Row → Row) (row : nat) (p : Page) :
  (∀ r, children (f r) = children r ∧ classList (f r) = classList r
        ∧ _originalValues (f r) = _originalValues r) →
  editView (set_rows (alter f row) p) = editView p.
Proof.
  intros Hf. unfold editView. simpl.
  rewrite fmap_alter_same; [done|]. intros r. by destruct (Hf r) as (-> & -> & ->).
Qed.

Lemma editView_filterRows (p : Page) : editView (filterRows p) = editView p.
Proof.
  unfold editView, filterRows. simpl. f_equal.
  rewrite <- list_fmap_compose. apply list_fmap_ext. intros i r _. simpl.
  by destruct (filterRow_frame (filterQuery p) (filterLiveOnly p) r)
    as (_ & -> & -> & ->).
Qed.

Lemma editView_showError (msg : string) (p : Page) :
  editView (showError msg p) = editView p.
Proof. unfold showError. by case_match. Qed.

Lemma editView_stopScanner (p : Page) : editView (stopScanner p) = editView p.
Proof. unfold stopScanner. by case_match. Qed.

Lemma editView_startScanner (mode : ScanMode) (p : Page) :
  editView (startScanner mode p) = editView p.
Proof. unfold startScanner. repeat case_match; by rewrite ?editView_showError. Qed.

End EditViewFacts.

(** X8: only a click on Edit or Cancel changes what inline editing
    works on.  Every other event, the live toggle, the filters, the
    scanner and the answers of the server included, leaves the cells,
    the classes and the saved values of every row and [editingRow] as
    they were; in particular a failed Save does not leave editing
    mode. *)
Theorem only_edit_events_change_cells `{Platform} (ev : Event) (p : Page) :
  isEditEvent ev = false → editView (handle ev p) = editView p.
Proof.
  intros Hev. destruct ev; try discriminate Hev; simpl.
  - apply editView_startScanner.
  - apply editView_stopScanner.
  - unfold startRejected. by rewrite editView_showError.
  - destruct onDecoded.
    + unfold onDecodedDefault. case_match.
      * change (editView (stopScanner p) = editView p).
        apply editView_stopScanner.
      * by rewrite editView_showError, editView_stopScanner.
    + change (editView (stopScanner p) = editView p).
      apply editView_stopScanner.
  - unfold stopSettled. by case_match.
  - unfold hideError. by case_match.
  - unfold toggleGiftFromVisibility. simpl. by repeat case_match.
  - case_match; [|done]. by rewrite editView_filterRows.
  - case_match; [|done]. by rewrite editView_filterRows.
  - by apply (keeps_emit editView _ row).
  - unfold liveToggleSettled, liveToggleThen. case_match; [|done].
    rewrite editView_filterRows. by apply editView_alter.
  - by apply (keeps_emit editView _ row).
  - unfold markReadSettled. by case_match.
  - apply editView_startScanner.
  - unfold readByIsbnSettled. repeat case_match; by rewrite ?editView_showError.
  - by apply (keeps_emit editView _ row).
  - unfold saveSettled. repeat case_match; by rewrite ?editView_showError.
Qed.

Lemma only_edit_events_change_cells_witness :
  let p := run (@enableEditing Sample.platform 0)
             (Sample.page [Sample.hobbit; Sample.emma] "" false) in
  let ev := SaveSettled (Fulfilled false None) in
  editView (@handle Sample.platform ev p) = editView p.
Proof.
  intros p ev.
  exact (@only_edit_events_change_cells Sample.platform ev p eq_refl).
Defined.

Section SavedFacts.
Context `{Platform}.

Lemma savedView_editView (p q : Page) :
  editView q = editView p → savedView q = savedView p.
Proof.
  unfold editView, savedView. intros [= He Hr]. f_equal; [done|].
  apply (f_equal (fmap (λ t : list Cell * list string * option (list string),
                          (t.2, length t.1.1)))) in Hr.
  by rewrite <- !list_fmap_compose in Hr.
Qed.

(** Every listener keeps a saved value for each cell of the row being
    edited. *)
Lemma cancellable_handle (ev : Event) (p : Page) :
  cancellable p → cancellable (handle ev p).
Proof.
  intros Hc.
  assert (Hview : ∀ q, editView q = editView p → cancellable q).
  { intros q Hq. apply (cancellable_view p); [by apply savedView_editView|done]. }
  destruct ev; simpl.
  - by apply Hview, editView_startScanner.
  - by apply Hview, editView_stopScanner.
  - apply Hview. unfold startRejected. by rewrite editView_showError.
  - destruct onDecoded; apply Hview.
    + unfold onDecodedDefault. case_match.
      * change (editView (stopScanner p) = editView p).
        apply editView_stopScanner.
      * by rewrite editView_showError, editView_stopScanner.
    + change (editView (stopScanner p) = editView p).
      apply editView_stopScanner.
  - apply Hview. unfold stopSettled. by case_match.
  - apply Hview. unfold hideError. by case_match.
  - apply Hview. unfold toggleGiftFromVisibility. simpl. by repeat case_match.
  - apply Hview. case_match; [|done]. by rewrite editView_filterRows.
  - apply Hview. case_match; [|done]. by rewrite editView_filterRows.
  - by apply Hview, (keeps_emit editView _ row).
  - apply Hview. unfold liveToggleSettled, liveToggleThen. case_match; [|done].
    rewrite editView_filterRows. by apply editView_alter.
  - by apply Hview, (keeps_emit editView _ row).
  - apply Hview. unfold markReadSettled. by case_match.
  - by apply Hview, editView_startScanner.
  - apply Hview. unfold readByIsbnSettled.
    repeat case_match; by rewrite ?editView_showError.
  - pose proof (enableEditing_cancellable row p Hc) as He. unfold run.
    by destruct (enableEditing row p) as [[[]|] p'].
  - by apply Hview, (keeps_emit editView _ row).
  - apply Hview. unfold saveSettled.
    repeat case_match; by rewrite ?editView_showError.
  - by apply cancelEditing_cancellable.
Qed.

(** On a page as the server renders it, the edit in progress can be
    cancelled after any sequence of events. *)
Lemma cancellable_always (evs : list Event) (p : Page) :
  editingRow p = None → cancellable (handleAll evs (onLoad p)).
Proof.
  intros He.
  assert (Hc : cancellable (onLoad p)).
  { apply (cancellable_view p).
    - apply savedView_editView. unfold onLoad. rewrite editView_filterRows.
      unfold toggleGiftFromVisibility. by repeat case_match.
    - intros e re Hee. congruence. }
  clear He. unfold handleAll. revert Hc. generalize (onLoad p).
  induction evs as [|ev evs IH]; intros q Hq; simpl; [done|].
  by apply IH, cancellable_handle.
Qed.

End SavedFacts.

(** ** The scanner *)

Section ScannerFacts.
Context `{Platform}.

Lemma html5QrCode_showError (msg : string) (p : Page) :
  html5QrCode (showError msg p) = html5QrCode p.
Proof. unfold showError. by case_match. Qed.

Lemma html5QrCode_stopScanner (p : Page) :
  html5QrCode (stopScanner p) = html5QrCode p.
Proof. unfold stopScanner. by case_match. Qed.

(** No listener unsets [html5QrCode]. *)
Lemma html5QrCode_handle (ev : Event) (p : Page) :
  html5QrCode p = true → html5QrCode (handle ev p) = true.
Proof.
  intros Hq. destruct ev; simpl.
  - unfold startScanner. repeat case_match; by rewrite ?html5QrCode_showError.
  - by rewrite html5QrCode_stopScanner.
  - unfold startRejected. by rewrite html5QrCode_showError.
  - destruct onDecoded.
    + unfold onDecodedDefault. case_match.
      * change (html5QrCode (stopScanner p) = true).
        by rewrite html5QrCode_stopScanner.
      * by rewrite html5QrCode_showError, html5QrCode_stopScanner.
    + change (html5QrCode (stopScanner p) = true).
      by rewrite html5QrCode_stopScanner.
  - unfold stopSettled. by case_match.
  - unfold hideError. by case_match.
  - unfold toggleGiftFromVisibility. simpl. by repeat case_match.
  - by case_match.
  - by case_match.
  - rewrite <- Hq. by apply (keeps_emit html5QrCode _ row).
  - unfold liveToggleSettled, liveToggleThen. by case_match.
  - rewrite <- Hq. by apply (keeps_emit html5QrCode _ row).
  - unfold markReadSettled. by case_match.
  - unfold startScanner. repeat case_match; by rewrite ?html5QrCode_showError.
  - unfold readByIsbnSettled. repeat case_match; by rewrite ?html5QrCode_showError.
  - rewrite <- Hq. by apply (frame_enableEditing html5QrCode).
  - rewrite <- Hq. by apply (keeps_emit html5QrCode _ row).
  - unfold saveSettled. repeat case_match; by rewrite ?html5QrCode_showError.
  - rewrite <- Hq. by apply (frame_cancelEditing html5QrCode).
Qed.

End ScannerFacts.

(** X9: [startScanner] starts nothing when the browser is offline or
    the scanning library is missing: it shows a message (the offline
    one first) and leaves the scanner area and the scanner object as
    they were.  Otherwise it shows the area and starts a scanner with
    the callback of the button that was clicked. *)
Theorem startScanner_guards `{Platform} (onDecoded : ScanMode) (p : Page) :
  handle StartScanClick p = startScanner DefaultScan p
  ∧ handle ScanMarkReadClick p = startScanner MarkReadScan p
  ∧ let p' := startScanner onDecoded p in
    if onLine p && Html5Qrcode p then
      log p' = log p ++ [ScannerStart onDecoded]
      ∧ scannerContainer_display p' = "block"
      ∧ html5QrCode p' = true
      ∧ errorMessageDiv p' = errorMessageDiv p
    else
      scannerContainer_display p' = scannerContainer_display p
      ∧ html5QrCode p' = html5QrCode p
      ∧ (∃ msg note, log p' = log p ++ [note]
           ∧ (note = Alert msg ∨ note = SetTimeout 6000)
           ∧ (errorMessageDiv p = None → note = Alert msg)
           ∧ (errorMessageDiv p ≠ None →
              errorMessageDiv p'
              = Some {| err_textContent := msg; err_display := "block" |})
           ∧ (onLine p = false →
              msg = "You appear to be offline. Barcode scanning requires an internet connection to load the scanning library.")
           ∧ (onLine p = true →
              msg = "Barcode scanner library failed to load. Please check your internet connection or try again later.")).
Proof.
  split; [done|]. split; [done|]. simpl. unfold startScanner, showError.
  destruct (onLine p), (Html5Qrcode p), (errorMessageDiv p) eqn:He; simpl;
    try done; repeat (split; [done|]);
    eexists _, _; (split; [done|]); repeat split; auto; done.
Qed.

(** X10: once a scanner has been created the script never lets go of
    it: after any events [html5QrCode] is still set, so every later
    Stop click calls the library's [stop] and leaves the scanner area
    visible until that call has resolved; if it rejects, the area stays
    visible and only the console is written to. *)
Theorem scanner_object_is_kept `{Platform} (evs : list Event) (p : Page) :
  html5QrCode p = true →
  let q := handleAll evs p in
  html5QrCode q = true
  ∧ log (handle StopScanClick q) = log q ++ [ScannerStop]
  ∧ scannerContainer_display (handle StopScanClick q) = scannerContainer_display q
  ∧ scannerContainer_display (handle (ScannerStopSettled true) q) = "none"
  ∧ scannerContainer_display (handle (ScannerStopSettled false) q)
    = scannerContainer_display q
  ∧ log (handle (ScannerStopSettled false) q)
    = log q ++ [ConsoleError "Error stopping scanner"].
Proof.
  assert (Hall : ∀ p0, html5QrCode p0 = true →
                       html5QrCode (handleAll evs p0) = true).
  { unfold handleAll. induction evs as [|ev evs IH]; intros p0 Hq; [done|].
    simpl. by apply IH, html5QrCode_handle. }
  intros Hq q. pose proof (Hall p Hq) as Hq'. fold q in Hq'.
  split; [done|]. simpl. unfold stopScanner. by rewrite Hq'.
Qed.

Lemma scanner_object_is_kept_witness :
  let p := @handle Sample.platform StartScanClick
             (Sample.page [Sample.hobbit] "" false) in
  let q := @handleAll Sample.platform
             [StopScanClick; ScannerStopSettled true; EditClick 0] p in
  html5QrCode q = true
  ∧ log (@handle Sample.platform StopScanClick q) = log q ++ [ScannerStop]
  ∧ scannerContainer_display (@handle Sample.platform StopScanClick q)
    = scannerContainer_display q
  ∧ scannerContainer_display (@handle Sample.platform (ScannerStopSettled true) q)
    = "none"
  ∧ scannerContainer_display (@handle Sample.platform (ScannerStopSettled false) q)
    = scannerContainer_display q
  ∧ log (@handle Sample.platform (ScannerStopSettled false) q)
    = log q ++ [ConsoleError "Error stopping scanner"].
Proof.
  intros p q.
  exact (@scanner_object_is_kept Sample.platform
           [StopScanClick; ScannerStopSettled true; EditClick 0] p eq_refl).
Defined.

(** X11: in the mark-read mode the decoded text goes to the server as
    it is, whether or not a row of the table has that ISBN and even if
    it holds no digit: the script stops the scanner and POSTs it to
    [/read_by_isbn], and touches neither the Add form nor the table. *)
Theorem markRead_scan_posts_raw_text `{Platform} (p : Page) (decodedText : string) :
  html5QrCode p = true →
  let p' := handle (ScannerDecoded MarkReadScan decodedText) p in
  log p' = log p ++
      [ScannerStop;
       Fetch {| url := "/read_by_isbn"; method := "POST";
                headers := [("Content-Type", "application/x-www-form-urlencoded")];
                body := Some ("isbn=" +:+ encodeURIComponent decodedText) |}]
  ∧ isbnInput p' = isbnInput p
  ∧ rows p' = rows p
  ∧ errorMessageDiv p' = errorMessageDiv p.
Proof.
  intros Hq. simpl. unfold onDecodedMarkRead, stopScanner. rewrite Hq. simpl.
  by rewrite <- app_assoc.
Qed.

Lemma markRead_scan_posts_raw_text_witness :
  let p := set_html5QrCode true (Sample.page [Sample.hobbit] "" false) in
  let p' := @handle Sample.platform (ScannerDecoded MarkReadScan "no-such-book") p in
  log p' = log p ++
      [ScannerStop;
       Fetch {| url := "/read_by_isbn"; method := "POST";
                headers := [("Content-Type", "application/x-www-form-urlencoded")];
                body := Some "isbn=no-such-book" |}]
  ∧ isbnInput p' = isbnInput p
  ∧ rows p' = rows p
  ∧ errorMessageDiv p' = errorMessageDiv p.
Proof.
  intros p p'.
  exact (@markRead_scan_posts_raw_text Sample.platform p "no-such-book" eq_refl).
Defined.

(** X12: in the default mode only the digits of the decoded text
    count.  Two texts with the same digits lead to the same request or
    the same message; the pages they leave differ at most in the ISBN
    input, which holds the text as decoded when no row matched. *)
Theorem default_scan_digits_only `{Platform} (p : Page) (d1 d2 : string) :
  normalizeIsbn (JsString d1) = normalizeIsbn (JsString d2) →
  let p1 := handle (ScannerDecoded DefaultScan d1) p in
  let p2 := handle (ScannerDecoded DefaultScan d2) p in
  set_isbnInput "" p1 = set_isbnInput "" p2
  ∧ (isbnInput p1 = isbnInput p ∧ isbnInput p2 = isbnInput p
     ∨ isbnInput p1 = d1 ∧ isbnInput p2 = d2).
Proof.
  intros E. simpl. unfold onDecodedDefault. rewrite E.
  destruct (findMatched _ (rows p)); simpl.
  - split; [done|]. left. unfold stopScanner. by case_match.
  - unfold showError, stopScanner. simpl.
    destruct (html5QrCode p); simpl; destruct (errorMessageDiv p); simpl;
      (split; [reflexivity | by right]).
Qed.

Lemma default_scan_digits_only_witness :
  let p := set_html5QrCode true (Sample.page [Sample.hobbit; Sample.emma] "" false) in
  let p1 := @handle Sample.platform (ScannerDecoded DefaultScan "9780261102217") p in
  let p2 := @handle Sample.platform (ScannerDecoded DefaultScan "978 0 261 10221-7") p in
  set_isbnInput "" p1 = set_isbnInput "" p2
  ∧ (isbnInput p1 = isbnInput p ∧ isbnInput p2 = isbnInput p
     ∨ isbnInput p1 = "9780261102217" ∧ isbnInput p2 = "978 0 261 10221-7").
Proof.
  intros p p1 p2.
  exact (@default_scan_digits_only Sample.platform p
           "9780261102217" "978 0 261 10221-7" eq_refl).
Defined.



Section ExactFacts.
Context `{Platform}.
Implicit Types (x : Row) (e : option nat) (others : list (option Row)).














End ExactFacts.





(** X15: starting to edit another row ends the edit in progress.  From
    a page where nothing is being edited, a click on Edit in row [i]
    followed by a click on Edit in row [j] leaves row [i] without the
    [editing] class and with every cell assigned the markup it had, so
    that it reads as the browser reads that markup back, and row [j]
    as the one being edited, with its own markup saved; this holds
    however the two calls complete. *)
Theorem editing_another_row_restores_first `{Platform}
    (p : Page) (i j : nat) (ri rj : Row) :
  editingRow p = None →
  rows p !! i = Some ri → rows p !! j = Some rj → i ≠ j →
  ¬ isEditing ri → ¬ isEditing rj →
  let p2 := handleAll [EditClick i; EditClick j] p in
  (∃ ri', rows p2 !! i = Some ri'
          ∧ cellsHTML ri' = readBack <$> cellsHTML ri
          ∧ ¬ isEditing ri')
  ∧ editingRow p2 = Some j
  ∧ (∃ rj', rows p2 !! j = Some rj' ∧ isEditing rj'
            ∧ _originalValues rj' = Some (cellsHTML rj))
  ∧ ∀ k, k ≠ i → k ≠ j → rows p2 !! k = rows p !! k.
Proof.
  intros He Hri Hrj Hij Hni Hnj p2.
  (* first click *)
  assert (H1 : editingNow i ri (otherRows i p) (handle (EditClick i) p)).
  { pose proof (enableEditing_fresh i ri p Hri Hni He p eq_refl) as Hh.
    simpl. unfold run. destruct (enableEditing i p) as [[[]|] p1]; simpl; tauto. }
  set (p1 := handle (EditClick i) p) in *.
  (* the second click cancels row i first *)
  assert (Hs1 : saved i (cellsHTML ri) p1 ∧ otherRows i p1 = otherRows i p).
  { destruct H1 as (Hent & _ & Ho1). split; [by apply entered_saved|done]. }
  pose proof (cancelEditing_leaves i (cellsHTML ri) (otherRows i p) p1 Hs1) as Hc.
  destruct (cancelEditing i p1) as [[[]|] q] eqn:Ec; [|done].
  destruct Hc as (Hrest & Heq & Hoq).
  assert (Hqj : rows q !! j = Some rj).
  { rewrite <- Hrj. apply (otherRows_lookup i); [done|]. by intros ->. }
  assert (E2 : enableEditing j p1 = enableEditing j q).
  { apply (enableEditing_after_cancel j i); try done. by destruct H1 as (_ & ? & _). }
  pose proof (enableEditing_fresh j rj q Hqj Hnj Heq q eq_refl) as Hh.
  assert (H2 : editingNow j rj (otherRows j q) p2).
  { change (editingNow j rj (otherRows j q) (enableEditing j p1).2). rewrite E2.
    destruct (enableEditing j q) as [[[]|] p3]; simpl; tauto. }
  destruct H2 as ((cl & Hsh & Hcl) & He2 & Ho2).
  split; [|split; [done|split]].
  - destruct Hrest as (ri' & Hri' & ? & ?). exists ri'. split; [|done].
    rewrite <- Hri'. apply (otherRows_lookup j); [done|]. by intros ->.
  - unfold shapeAt in Hsh. destruct (rows p2 !! j) as [rj'|]; [|done].
    simpl in Hsh. injection Hsh as <- ? ?. by exists rj'.
  - intros k Hki Hkj.
    rewrite (otherRows_lookup j k p2 q Ho2 Hkj).
    by apply (otherRows_lookup i).
Qed.

Lemma editing_another_row_restores_first_witness :
  let p := Sample.page [Sample.hobbit; Sample.emma] "" false in
  let p2 := @handleAll Sample.platform [EditClick 0; EditClick 1] p in
  (∃ ri', rows p2 !! 0 = Some ri'
          ∧ cellsHTML ri' = @readBack Sample.platform <$> cellsHTML Sample.hobbit
          ∧ ¬ isEditing ri')
  ∧ editingRow p2 = Some 1
  ∧ (∃ rj', rows p2 !! 1 = Some rj' ∧ isEditing rj'
            ∧ _originalValues rj' = Some (cellsHTML Sample.emma))
  ∧ ∀ k, k ≠ 0 → k ≠ 1 → rows p2 !! k = rows p !! k.
Proof.
  intros p.
  apply (@editing_another_row_restores_first Sample.platform p 0 1
           Sample.hobbit Sample.emma eq_refl eq_refl eq_refl).
  - discriminate.
  - intros Hed. apply list_elem_of_In in Hed. destruct Hed.
  - intros Hed. apply list_elem_of_In in Hed. destruct Hed.
Defined.

(** X16: [cancelEditing] is safe to repeat.  On a row that is not in
    editing mode it returns without touching the page; on a missing
    row it throws without touching the page; and after a call that
    completed, a second call changes nothing. *)
Theorem cancelEditing_idempotent `{Platform} (p : Page) (row : nat) :
  (rows p !! row = None → cancelEditing row p = (Throw, p))
  ∧ (∀ r, rows p !! row = Some r → ¬ isEditing r →
       cancelEditing row p = (Normal (), p))
  ∧ (∀ p1, cancelEditing row p = (Normal (), p1) →
       cancelEditing row p1 = (Normal (), p1)).
Proof.
  assert (Hnoop : ∀ q r, rows q !! row = Some r → ¬ isEditing r →
                         cancelEditing row q = (Normal (), q)).
  { intros q r Hr Hned. unfold cancelEditing. rewrite bind_eq.
    unfold getRow. rewrite Hr. apply contains_false in Hned. by rewrite Hned. }
  split; [|split; [apply Hnoop|]].
  - intros Hr. unfold cancelEditing. rewrite bind_eq. unfold getRow. by rewrite Hr.
  - intros p1 E. pose proof (cancelEditing_not_editing row p I) as Hh.
    rewrite E in Hh. destruct Hh as (x & Hx & Hned). by apply (Hnoop p1 x).
Qed.

(** ** Messages, the gift field and the requests of a row *)

(** X17: [showError] with an error box puts the message in the box,
    shows it and sets one timer of 6000 ms, without an error box it
    alerts and changes nothing else.  When a timer fires the box is
    emptied and hidden whatever it shows: the timer of an earlier
    message also clears a later one. *)
Theorem showError_and_timer `{Platform} (msg later : string) (p : Page) :
  match errorMessageDiv p with
  | Some _ =>
      errorMessageDiv (showError msg p)
        = Some {| err_textContent := msg; err_display := "block" |}
      ∧ log (showError msg p) = log p ++ [SetTimeout 6000]
      ∧ errorMessageDiv (handle ErrorTimerFired (showError msg p))
        = Some {| err_textContent := ""; err_display := "none" |}
      ∧ errorMessageDiv (handle ErrorTimerFired (showError later (showError msg p)))
        = Some {| err_textContent := ""; err_display := "none" |}
  | None =>
      showError msg p = emit (Alert msg) p
      ∧ handle ErrorTimerFired p = p
  end
  ∧ rows (showError msg p) = rows p
  ∧ ∀ r, Fetch r ∈ log (showError msg p) → Fetch r ∈ log p.
Proof.
  unfold showError. simpl. unfold hideError.
  destruct (errorMessageDiv p) eqn:He; simpl; rewrite ?He; simpl;
    (split; [done|]); (split; [done|]); intros r;
    rewrite elem_of_app, list_elem_of_singleton; by intros [?|?].
Qed.

(** X18: the gift giver field of the Add form.  Unchecking the gift
    box hides the field and empties it, checking it shows the field
    and leaves its text; so a name typed before unchecking is gone
    when the box is checked again.  Without a gift box nothing
    happens, and on load the field is shown or hidden by the box as
    rendered. *)
Theorem gift_field_follows_checkbox `{Platform} (checked : bool) (p : Page) :
  match giftForm p with
  | Some g =>
      giftForm (handle (GiftCheckboxChange checked) p)
        = Some {| gift_checked := checked;
                  giftFromGroup_display := if checked then "block" else "none";
                  giftFromInput :=
                    if checked then giftFromInput g
                    else (λ _, "") <$> giftFromInput g |}
      ∧ giftForm (handleAll [GiftCheckboxChange false; GiftCheckboxChange true] p)
        = Some {| gift_checked := true; giftFromGroup_display := "block";
                  giftFromInput := (λ _, "") <$> giftFromInput g |}
      ∧ giftForm (onLoad p)
        = Some {| gift_checked := gift_checked g;
                  giftFromGroup_display :=
                    if gift_checked g then "block" else "none";
                  giftFromInput :=
                    if gift_checked g then giftFromInput g
                    else (λ _, "") <$> giftFromInput g |}
  | None =>
      handle (GiftCheckboxChange checked) p = p ∧ giftForm (onLoad p) = None
  end
  ∧ rows (handle (GiftCheckboxChange checked) p) = rows p
  ∧ log (handle (GiftCheckboxChange checked) p) = log p.
Proof.
  unfold handleAll, onLoad. simpl. unfold toggleGiftFromVisibility. simpl.
  destruct (giftForm p) as [[c d i]|] eqn:Hg; simpl; rewrite ?Hg; simpl.
  - destruct checked, c; simpl; by destruct i.
  - done.
Qed.

(** X19: the requests of a row carry its [data-id] as it is.  The live
    toggle and Save POST to [/update/] and the mark-read button to
    [/read/] followed by the attribute; a row without [data-id] still
    sends its request, to [/update/undefined] or [/read/undefined].
    Save sends the five fields trimmed.  None of the three clicks
    changes anything but the log. *)
Theorem row_requests_carry_data_id `{Platform}
    (p : Page) (row : nat) (r : Row) (checked : bool) (f : EditForm) :
  rows p !! row = Some r →
  let id := default "undefined" (dataset r !! "id") in
  let form := [("Content-Type", "application/x-www-form-urlencoded")] in
  handle (LiveToggleChange row checked) p
    = emit (Fetch {| url := "/update/" +:+ id; method := "POST"; headers := form;
                     body := Some ("is_live=" +:+ (if checked then "true" else "false")) |}) p
  ∧ handle (MarkReadClick row) p
    = emit (Fetch {| url := "/read/" +:+ id; method := "POST"; headers := [];
                     body := None |}) p
  ∧ handle (SaveClick row f) p
    = emit (Fetch {| url := "/update/" +:+ id; method := "POST"; headers := form;
                     body := Some (urlencoded
                               [("title", trim (edit_title f));
                                ("authors", trim (edit_authors f));
                                ("tags", trim (edit_tags f));
                                ("gift_from", trim (edit_gift_from f));
                                ("is_gift", if edit_gift_toggle f then "true" else "false")]) |}) p.
Proof.
  intros Hr id form. simpl.
  unfold run, liveToggleChange, markReadClick, saveClick.
  rewrite !bind_eq. unfold getRow. rewrite Hr. simpl.
  assert (js_String (dataset_get r "id") = id) as ->.
  { unfold id, dataset_get. by destruct (dataset r !! "id"). }
  done.
Qed.

Lemma row_requests_carry_data_id_witness :
  let bare := set_dataset (delete "id") Sample.emma in
  let p := Sample.page [Sample.hobbit; bare] "" false in
  let f := {| edit_title := " Emma "; edit_authors := "Jane Austen";
              edit_tags := ""; edit_gift_from := ""; edit_gift_toggle := true |} in
  let form := [("Content-Type", "application/x-www-form-urlencoded")] in
  @handle Sample.platform (LiveToggleChange 1 true) p
    = emit (Fetch {| url := "/update/" +:+ "undefined"; method := "POST";
                     headers := form; body := Some ("is_live=" +:+ "true") |}) p
  ∧ @handle Sample.platform (MarkReadClick 1) p
    = emit (Fetch {| url := "/read/" +:+ "undefined"; method := "POST";
                     headers := []; body := None |}) p
  ∧ @handle Sample.platform (SaveClick 1 f) p
    = emit (Fetch {| url := "/update/" +:+ "undefined"; method := "POST";
                     headers := form;
                     body := Some (@urlencoded Sample.platform
                               [("title", @trim Sample.platform (edit_title f));
                                ("authors", @trim Sample.platform (edit_authors f));
                                ("tags", @trim Sample.platform (edit_tags f));
                                ("gift_from", @trim Sample.platform (edit_gift_from f));
                                ("is_gift", "true")]) |}) p.
Proof.
  intros bare p f form.
  exact (@row_requests_carry_data_id Sample.platform p 1 bare true f eq_refl).
Defined.

(** X20: a listener whose button is in no row does nothing.  With
    [closest('tr')] giving null, the live toggle, mark-read, Save and
    Cancel handlers throw before they have changed or sent anything;
    so does the Edit handler when nothing is being edited, but when a
    row is being edited it cancels that edit first. *)
Theorem listeners_without_row `{Platform}
    (p : Page) (row : nat) (checked : bool) (f : EditForm) :
  rows p !! row = None →
  handle (LiveToggleChange row checked) p = p
  ∧ handle (MarkReadClick row) p = p
  ∧ handle (SaveClick row f) p = p
  ∧ handle (CancelClick row) p = p
  ∧ (editingRow p = None → handle (EditClick row) p = p)
  ∧ (∀ e, editingRow p = Some e → e ≠ row →
       handle (EditClick row) p = run (cancelEditing e) p).
Proof.
  intros Hr.
  assert (Hget : ∀ q, rows q !! row = None → getRow row q = (Throw, q)).
  { intros q Hq. unfold getRow. by rewrite Hq. }
  simpl. unfold run.
  split. { unfold liveToggleChange. by rewrite bind_eq, Hget. }
  split. { unfold markReadClick. by rewrite bind_eq, Hget. }
  split. { unfold saveClick. by rewrite bind_eq, Hget. }
  split. { unfold cancelEditing. by rewrite bind_eq, Hget. }
  split.
  - intros He. unfold enableEditing. rewrite (bind_eq get). simpl. rewrite He.
    rewrite (bind_eq (mret ())). simpl. by rewrite bind_eq, Hget.
  - intros e He Hne. unfold enableEditing. rewrite (bind_eq get). simpl.
    rewrite He, bool_decide_eq_true_2 by done.
    rewrite (bind_eq (cancelEditing e)).
    assert (Hk : keeps (λ p, length (rows p)) (cancelEditing e)).
    { apply frame_cancelEditing; intros; simpl; by rewrite ?length_alter. }
    specialize (Hk p).
    destruct (cancelEditing e p) as [[[]|] q]; [|done]. simpl in Hk.
    rewrite bind_eq, Hget; [done|].
    apply lookup_ge_None. apply lookup_ge_None in Hr. lia.
Qed.

Lemma listeners_without_row_witness :
  let p := Sample.page [Sample.hobbit] "" false in
  let f := {| edit_title := ""; edit_authors := ""; edit_tags := "";
              edit_gift_from := ""; edit_gift_toggle := false |} in
  @handle Sample.platform (LiveToggleChange 5 true) p = p
  ∧ @handle Sample.platform (MarkReadClick 5) p = p
  ∧ @handle Sample.platform (SaveClick 5 f) p = p
  ∧ @handle Sample.platform (CancelClick 5) p = p
  ∧ (editingRow p = None → @handle Sample.platform (EditClick 5) p = p)
  ∧ (∀ e, editingRow p = Some e → e ≠ 5 →
       @handle Sample.platform (EditClick 5) p
       = run (@cancelEditing Sample.platform e) p).
Proof.
  intros p f.
  exact (@listeners_without_row Sample.platform p 5 true f eq_refl).
Defined.

(** ** Reloading *)

Section ReloadFacts.
Context `{Platform}.

Lemma log_showError (msg : string) (p : Page) :
  ∃ note, log (showError msg p) = log p ++ [note] ∧ note ≠ Reload.
Proof. unfold showError. case_match; by eexists. Qed.

Lemma log_stopScanner (p : Page) :
  ∃ new, log (stopScanner p) = log p ++ new ∧ Reload ∉ new.
Proof.
  unfold stopScanner. case_match.
  - exists [ScannerStop]. split; [done|]. by intros [?|?%elem_of_nil]%elem_of_cons.
  - exists []. split; [by rewrite app_nil_r|]. apply not_elem_of_nil.
Qed.

Lemma log_row_request (row : nat) (e : Row → Effect) (p : Page) :
  (∀ r, e r ≠ Reload) →
  ∃ new, log (run (r ← getRow row; modify (emit (e r))) p) = log p ++ new
         ∧ Reload ∉ new.
Proof.
  intros He. unfold run. rewrite bind_eq. unfold getRow.
  destruct (rows p !! row) as [r|]; simpl.
  - exists [e r]. split; [done|].
    intros [?|?%elem_of_nil]%elem_of_cons; [|done]. by apply (He r).
  - exists []. split; [by rewrite app_nil_r|]. apply not_elem_of_nil.
Qed.

End ReloadFacts.

(** X21: when the page reloads.  It reloads after any response to a
    mark-read request, successful or not, and after a successful
    response to a Save or a [/read_by_isbn] request, and at no other
    moment: never on a click, never when a request was rejected, and
    never after a failed Save or [/read_by_isbn]. *)
Theorem reload_only_after_response `{Platform} (ev : Event) (p : Page) :
  ∃ new, log (handle ev p) = log p ++ new
         ∧ (Reload ∈ new ↔ reloads ev = true).
Proof.
  assert (Hno : ∀ q new, log q = log p ++ new → Reload ∉ new → reloads ev = false →
                ∃ new, log q = log p ++ new ∧ (Reload ∈ new ↔ reloads ev = true)).
  { intros q new Hq Hn Hf. exists new. split; [done|]. rewrite Hf. by split. }
  assert (Hnote : ∀ msg q new, log q = log p ++ new → Reload ∉ new →
                  reloads ev = false →
                  ∃ new, log (showError msg q) = log p ++ new
                         ∧ (Reload ∈ new ↔ reloads ev = true)).
  { intros msg q new Hq Hn Hf.
    destruct (log_showError msg q) as (note & -> & Hnote).
    apply (Hno (emit note q) (new ++ [note])); [|by intros [?|[?|?%elem_of_nil]%elem_of_cons]%elem_of_app|done].
    simpl. by rewrite Hq, <- app_assoc. }
  assert (H0 : log p = log p ++ []) by (by rewrite app_nil_r).
  assert (Hnil : Reload ∉ @nil Effect) by apply not_elem_of_nil.
  assert (Hone : ∀ e : Effect, e ≠ Reload → Reload ∉ [e]).
  { intros e He [?|?%elem_of_nil]%elem_of_cons; done. }
  destruct ev; simpl.
  - unfold startScanner. repeat case_match;
      first [ by apply (Hnote _ p [])
            | by apply (Hno _ [ScannerStart DefaultScan]); [|apply Hone|] ].
  - destruct (log_stopScanner p) as (new & ? & ?). by apply (Hno _ new).
  - unfold startRejected.
    by apply (Hnote _ _ [ConsoleError "Error starting scanner"]); [|apply Hone|].
  - destruct (log_stopScanner p) as (new & Hs & Hn).
    destruct onDecoded.
    + unfold onDecodedDefault. case_match.
      * apply (Hno _ (new ++ [readByIsbn (js_String (dataset_get r "isbn"))])); [|by intros [?|[?|?%elem_of_nil]%elem_of_cons]%elem_of_app|done].
        simpl. by rewrite Hs, <- app_assoc.
      * apply (Hnote _ _ new); try done.
        destruct (log_stopScanner (set_isbnInput decodedText p)) as (new' & Hs' & Hn').
        revert Hs. unfold stopScanner. simpl. by case_match.
    + apply (Hno _ (new ++ [readByIsbn decodedText])); [|by intros [?|[?|?%elem_of_nil]%elem_of_cons]%elem_of_app|done].
      unfold onDecodedMarkRead. simpl. by rewrite Hs, <- app_assoc.
  - unfold stopSettled. case_match;
      [by apply (Hno _ [ScannerClear]); [|apply Hone|]
      |by apply (Hno _ [ConsoleError "Error stopping scanner"]); [|apply Hone|]].
  - unfold hideError. case_match; by apply (Hno _ []).
  - unfold toggleGiftFromVisibility. simpl. repeat case_match; by apply (Hno _ []).
  - case_match; by apply (Hno _ []).
  - case_match; by apply (Hno _ []).
  - destruct (log_row_request row
                (λ r, Fetch {| url := "/update/" +:+ js_String (dataset_get r "id");
                               method := "POST"; headers := formHeaders;
                               body := Some ("is_live=" +:+ js_bool checked) |}) p)
      as (new & Hn & ?); [done|]. by apply (Hno _ new).
  - unfold liveToggleSettled, liveToggleThen. case_match; by apply (Hno _ []).
  - destruct (log_row_request row
                (λ r, Fetch {| url := "/read/" +:+ js_String (dataset_get r "id");
                               method := "POST"; headers := []; body := None |}) p)
      as (new & Hn & ?); [done|]. by apply (Hno _ new).
  - unfold markReadSettled. destruct o; simpl.
    + exists [Reload]. split; [done|]. split; [done|]. intros _. by left.
    + by apply (Hno _ []).
  - unfold startScanner. repeat case_match;
      first [ by apply (Hnote _ p [])
            | by apply (Hno _ [ScannerStart MarkReadScan]); [|apply Hone|] ].
  - unfold readByIsbnSettled. destruct o as [[] [txt|]|]; simpl.
    + exists [Reload]. split; [done|]. split; [done|]. intros _. by left.
    + exists [Reload]. split; [done|]. split; [done|]. intros _. by left.
    + by apply (Hnote _ p []).
    + by apply (Hnote _ _ [ConsoleError "Error marking read by ISBN"]); [|apply Hone|].
    + by apply (Hnote _ _ [ConsoleError "Error marking read by ISBN"]); [|apply Hone|].
  - apply (Hno _ []); [|done..]. rewrite app_nil_r.
    by apply (frame_enableEditing log).
  - destruct (log_row_request row
                (λ r, Fetch {| url := "/update/" +:+ js_String (dataset_get r "id");
                               method := "POST"; headers := formHeaders;
                               body := Some (urlencoded
                                 [("title", trim (edit_title f));
                                  ("authors", trim (edit_authors f));
                                  ("tags", trim (edit_tags f));
                                  ("gift_from", trim (edit_gift_from f));
                                  ("is_gift", js_bool (edit_gift_toggle f))]) |}) p)
      as (new & Hn & ?); [done|]. by apply (Hno _ new).
  - unfold saveSettled. destruct o as [[] txt|]; simpl.
    + exists [Reload]. split; [done|]. split; [done|]. intros _. by left.
    + by apply (Hnote _ p []).
    + by apply (Hnote _ p []).
  - apply (Hno _ []); [|done..]. rewrite app_nil_r.
    by apply (frame_cancelEditing log).
Qed.


(** ** Witnesses for two earlier lemmas *)

Lemma editingInvariant_always_witness :
  editingInvariant
    (@handleAll Sample.platform
       [EditClick 0; SaveClick 0 {| edit_title := "x"; edit_authors := "";
                                    edit_tags := ""; edit_gift_from := "";
                                    edit_gift_toggle := false |};
        EditClick 1; CancelClick 0; LiveToggleSettled 1 true Rejected]
       (@onLoad Sample.platform
          (Sample.page [Sample.hobbit; Sample.emma] "" false))).
Proof.
  apply (@editingInvariant_always Sample.platform); [reflexivity|].
  repeat constructor; intros Hed; apply list_elem_of_In in Hed; destruct Hed.
Defined.

Lemma failure_only_notice_witness :
  let p := run (@enableEditing Sample.platform 0)
             (Sample.page [Sample.hobbit; Sample.emma] "" false) in
  let p' := @handle Sample.platform
              (SaveSettled (Fulfilled false (Some "Bad Request"))) p in
  rows p' = rows p ∧ editingRow p' = editingRow p
  ∧ searchInput p' = searchInput p ∧ liveOnlyCheckbox p' = liveOnlyCheckbox p
  ∧ isbnInput p' = isbnInput p ∧ giftForm p' = giftForm p
  ∧ scannerContainer_display p' = scannerContainer_display p
  ∧ html5QrCode p' = html5QrCode p
  ∧ ∃ new, log p' = log p ++ new ∧ Forall isNotice new.
Proof.
  intros p.
  apply (@failure_only_notice Sample.platform
           (Fulfilled false (Some "Bad Request"))
           (SaveSettled (Fulfilled false (Some "Bad Request"))) p).
  - right. by eexists.
  - right. by left.
Defined.

(** ** The table is always filtered *)

Section FilteredFacts.
Context `{Platform}.

Lemma filterRow_display_data (query : string) (liveOnly : bool) (r r' : Row) :
  dataset r' = dataset r →
  style_display (filterRow query liveOnly r')
  = style_display (filterRow query liveOnly r).
Proof.
  intros E. unfold filterRow, dataset_get. rewrite E. by repeat case_match.
Qed.

Lemma filtered_filterRows (p : Page) : filtered (filterRows p).
Proof.
  unfold filtered, filterRows. simpl. apply Forall_fmap, Forall_forall.
  intros r _. simpl. by rewrite filterRow_idem.
Qed.

Lemma filtered_view (p q : Page) :
  filterView q = filterView p → filtered p → filtered q.
Proof.
  intros [= Hrows Hs Hl]. unfold filtered, filterQuery, filterLiveOnly.
  rewrite Hs, Hl. rewrite !Forall_lookup. intros Hp i r' Hr'.
  assert (Hi : ((λ r, (dataset r, style_display r)) <$> rows p) !! i
               = Some (dataset r', style_display r')).
  { by rewrite <- Hrows, list_lookup_fmap, Hr'. }
  rewrite list_lookup_fmap in Hi.
  destruct (rows p !! i) as [r|] eqn:Hr; [|done].
  simpl in Hi. injection Hi as Hd Hsd.
  rewrite <- Hsd, <- (Hp i r Hr). by apply filterRow_display_data.
Qed.

Lemma filterView_outside (p q : Page) :
  outsideEditing q = outsideEditing p → filterView q = filterView p.
Proof. intros [= ? ? ? _ _ _ _ _ _]. unfold filterView. congruence. Qed.

Lemma filterView_showError (msg : string) (p : Page) :
  filterView (showError msg p) = filterView p.
Proof. unfold showError. by case_match. Qed.

Lemma filterView_stopScanner (p : Page) :
  filterView (stopScanner p) = filterView p.
Proof. unfold stopScanner. by case_match. Qed.

Lemma filterView_startScanner (mode : ScanMode) (p : Page) :
  filterView (startScanner mode p) = filterView p.
Proof. unfold startScanner. repeat case_match; by rewrite ?filterView_showError. Qed.

(** One event leaves the table filtered. *)
Lemma filtered_handle (ev : Event) (p : Page) :
  filtered p → filtered (handle ev p).
Proof.
  intros Hp.
  assert (Hview : ∀ q, filterView q = filterView p → filtered q).
  { intros q Hq. by apply (filtered_view p). }
  destruct ev; simpl.
  - apply Hview, filterView_startScanner.
  - apply Hview, filterView_stopScanner.
  - apply Hview. unfold startRejected. by rewrite filterView_showError.
  - apply Hview. destruct onDecoded.
    + unfold onDecodedDefault. case_match.
      * change (filterView (stopScanner p) = filterView p).
        apply filterView_stopScanner.
      * by rewrite filterView_showError, filterView_stopScanner.
    + change (filterView (stopScanner p) = filterView p).
      apply filterView_stopScanner.
  - apply Hview. unfold stopSettled. by case_match.
  - apply Hview. unfold hideError. by case_match.
  - apply Hview. unfold toggleGiftFromVisibility. simpl. by repeat case_match.
  - case_match; [apply filtered_filterRows|done].
  - case_match; [apply filtered_filterRows|done].
  - apply Hview. by apply (keeps_emit filterView _ row).
  - unfold liveToggleSettled, liveToggleThen.
    case_match; [apply filtered_filterRows|done].
  - apply Hview. by apply (keeps_emit filterView _ row).
  - apply Hview. unfold markReadSettled. by case_match.
  - apply Hview, filterView_startScanner.
  - apply Hview. unfold readByIsbnSettled.
    repeat case_match; by rewrite ?filterView_showError.
  - apply Hview, filterView_outside.
    apply (frame_enableEditing outsideEditing); intros;
      by try apply outsideEditing_alter.
  - apply Hview. by apply (keeps_emit filterView _ row).
  - apply Hview. unfold saveSettled.
    repeat case_match; by rewrite ?filterView_showError.
  - apply Hview, filterView_outside.
    apply (frame_cancelEditing outsideEditing); intros;
      by try apply outsideEditing_alter.
Qed.

End FilteredFacts.

(** X22: the table is filtered at all times.  After the page has
    loaded and whatever events have followed, every row is displayed
    exactly when it passes the filter for what the search box and the
    live-only box hold now and what its attributes are now, and is
    hidden otherwise: the script refilters whenever it changes one of
    these, and nothing else touches the display. *)
Theorem table_always_filtered `{Platform}
    (evs : list Event) (p : Page) (i : nat) (r : Row) :
  let q := handleAll evs (onLoad p) in
  rows q !! i = Some r →
  (displayed r ↔ passesFilter (filterQuery q) (filterLiveOnly q) r)
  ∧ (¬ passesFilter (filterQuery q) (filterLiveOnly q) r → hidden r).
Proof.
  assert (Hall : ∀ p0, filtered p0 → filtered (handleAll evs p0)).
  { unfold handleAll. induction evs as [|ev evs IH]; intros p0 Hp0; [done|].
    by apply (IH (handle ev p0)), filtered_handle. }
  intros q Hr.
  assert (Hq : filtered q) by apply Hall, filtered_filterRows.
  unfold filtered in Hq. rewrite Forall_lookup in Hq. specialize (Hq i r Hr).
  pose proof (filterRow_display (filterQuery q) (filterLiveOnly q) r) as [Hd Hh].
  unfold displayed, hidden in *. rewrite Hq in Hd, Hh. done.
Qed.

Lemma table_always_filtered_witness :
  let q := @handleAll Sample.platform
             [LiveOnlyChange true; EditClick 0; SearchInputInput "emma";
              LiveToggleSettled 1 true (Fulfilled false None); CancelClick 0]
             (@onLoad Sample.platform
                (Sample.page [Sample.hobbit; Sample.emma] "" false)) in
  let r := default Sample.emma (rows q !! 1) in
  rows q !! 1 = Some r
  ∧ (displayed r
     ↔ @passesFilter Sample.platform (@filterQuery Sample.platform q)
         (filterLiveOnly q) r)
  ∧ (¬ @passesFilter Sample.platform (@filterQuery Sample.platform q)
         (filterLiveOnly q) r → hidden r).
Proof.
  intros q r.
  assert (Hr : rows q !! 1 = Some r) by (vm_compute; reflexivity).
  split; [exact Hr|].
  exact (@table_always_filtered Sample.platform
           [LiveOnlyChange true; EditClick 0; SearchInputInput "emma";
            LiveToggleSettled 1 true (Fulfilled false None); CancelClick 0]
           (Sample.page [Sample.hobbit; Sample.emma] "" false) 1 r Hr).
Defined.
